(** * A budget-constrained PyPI crawler: shallow embedding and properties

    Embedding of [src/pypi_crawler.py] (class [GitHubActionsPyPICrawler]).

    Conventions of the embedding.
    - Python [int] is [Z].  The megabyte amounts ([size / (1024 * 1024)],
      the running total) are Python [float]s: module [Float] gives the
      division of an integer by a power of two, the addition and the
      comparison with an integer as IEEE 754 binary64 performs them
      (rounding to nearest, ties to even, overflow, infinities).  The
      quotient is exact for byte counts below [2^53] and rounded above.
    - A JSON object is a record whose fields are [option]s: [None] is an
      absent key, and a subscript [d['k']] on an absent key raises
      [KeyError].  Present fields carry values of their documented JSON
      type.
    - The file system is a finite map from paths to contents, the network
      and the clock are oracles of the environment, and every request,
      write and pause is recorded in a trace (newest event first).
    - Logging is not modelled. *)

From Stdlib Require Import ZArith QArith Qround Qabs Lia Lqa Ascii.
From stdpp Require Import base tactics option list gmap strings.

Local Open Scope Z_scope.

(** ** Strings *)

Module Str.

(** [s.endswith(suffix)] *)
Fixpoint endswith (s suffix : string) : bool :=
  String.eqb s suffix ||
  match s with
  | EmptyString => false
  | String _ s' => endswith s' suffix
  end.

(** [s.startswith(prefix)] *)
Definition startswith (s prefix : string) : bool := String.prefix prefix s.

(** [s.replace('Z', '+00:00')]: every occurrence is replaced. *)
Fixpoint replace_Z (s : string) : string :=
  match s with
  | EmptyString => EmptyString
  | String c s' =>
      if Ascii.eqb c "Z"%char then "+00:00" +:+ replace_Z s'
      else String c (replace_Z s')
  end.

(** [str.isspace] on one character (code points below 256). *)
Definition isspace (c : ascii) : bool :=
  let n := Ascii.N_of_ascii c in
  ((9 <=? n) && (n <=? 13) || (28 <=? n) && (n <=? 32) ||
   (n =? 133) || (n =? 160))%N.

Fixpoint lstrip (s : string) : string :=
  match s with
  | EmptyString => EmptyString
  | String c s' => if isspace c then lstrip s' else s
  end.

Fixpoint take_word (s : string) : string :=
  match s with
  | EmptyString => EmptyString
  | String c s' => if isspace c then EmptyString else String c (take_word s')
  end.

(** [s.split()[0]]: the first whitespace-delimited token; [None] stands
    for the [IndexError] raised when [s.split()] is empty. *)
Definition split_first (s : string) : option string :=
  match lstrip s with
  | EmptyString => None
  | w => Some (take_word w)
  end.

(** [s[-1]] when [s] is not empty. *)
Fixpoint last (s : string) : option ascii :=
  match s with
  | EmptyString => None
  | String c EmptyString => Some c
  | String _ s' => last s'
  end.

(** [os.path.join(a, b)] (POSIX) for two components. *)
Definition path_join (a b : string) : string :=
  if startswith b "/" then b
  else if String.eqb a "" || endswith a "/" then a +:+ b
  else a +:+ "/" +:+ b.

End Str.

(** ** Data model *)

(** An element of [releases[version]]. *)
Record file_info := FileInfo {
  filename : option string;
  url : option string;
  size : option Z;
  upload_time_iso_8601 : option string
}.

(** A scalar of the [info] object that is only copied into the sidecar
    metadata: JSON [null] or a string. *)
Inductive scalar := SNull | SStr (s : string).

(** [package_info['info']] *)
Record info_obj := InfoObj {
  version : option string;
  summary : option scalar;
  author : option scalar;
  license : option scalar;
  home_page : option scalar
}.

(** The descriptor returned by the JSON endpoint. *)
Record package_info := PackageInfo {
  info : option info_obj;
  releases : option (gmap string (list file_info))
}.

(** A [datetime]: the wall-clock fields and, for an aware value, the UTC
    offset of its [tzinfo] in microseconds. *)
Record datetime := DateTime {
  year : Z; month : Z; day : Z;
  hour : Z; minute : Z; second : Z; microsecond : Z;
  tzinfo : option Z
}.

(** Exceptions that the modelled code can raise. *)
Inductive exn :=
| KeyError | ValueError | IndexError | TypeError | OverflowError
| RequestException | OSError.

(** Result of a computation that may raise. *)
Inductive outcome (A : Type) :=
| Return (a : A)
| Raise (e : exn).
Arguments Return {A} a.
Arguments Raise {A} e.

#[global] Instance outcome_ret : MRet outcome := λ A a, Return a.
#[global] Instance outcome_bind : MBind outcome := λ A B f m,
  match m with
  | Return a => f a
  | Raise e => Raise e
  end.

(** [d['k']] on an optional field. *)
Definition subscript {A} (field : option A) : outcome A :=
  match field with
  | Some a => Return a
  | None => Raise KeyError
  end.

(** ** Floating point

    A Python [float] is an IEEE 754 binary64 value.  A finite one is kept
    as an integer [m] and an exponent [e] standing for [m * 2^e]; the
    finite results of the operations have [|m| <= 2^53] and
    [-1074 <= e].  The sign of a zero is not kept: the sums and the
    comparisons of the crawler do not depend on it. *)

Module Float.

Inductive t :=
| Finite (m e : Z)
| PosInf
| NegInf
| NaN.

(** [m / 2^k] rounded to the nearest integer, ties to the even one, for
    [0 < k]. *)
Definition shift_round (m k : Z) : Z :=
  let q := m / 2 ^ k in
  match m mod 2 ^ k ?= 2 ^ (k - 1) with
  | Lt => q
  | Gt => q + 1
  | Eq => if Z.even q then q else q + 1
  end.

(** The float nearest to [m * 2^e], ties to even: 53 significant bits,
    no exponent below [-1074], and an infinity when the rounded magnitude
    reaches [2^1024]. *)
Definition round (m e : Z) : t :=
  let k := Z.max (Z.log2 (Z.abs m) - 52) (- 1074 - e) in
  let m' := if 0 <? k then shift_round m k else m in
  let e' := if 0 <? k then e + k else e in
  if m' =? 0 then Finite 0 e'
  else if 1024 <=? Z.log2 (Z.abs m') + e'
       then (if 0 <? m' then PosInf else NegInf)
       else Finite m' e'.

(** [n / 2**k] on two [int]s: the correctly rounded quotient, and
    [OverflowError] when it is too large for a float. *)
Definition int_div_pow2 (n k : Z) : outcome t :=
  match round n (- k) with
  | PosInf | NegInf => Raise OverflowError
  | x => Return x
  end.

(** [x + y] *)
Definition add (x y : t) : t :=
  match x, y with
  | NaN, _ | _, NaN => NaN
  | PosInf, NegInf | NegInf, PosInf => NaN
  | PosInf, _ | _, PosInf => PosInf
  | NegInf, _ | _, NegInf => NegInf
  | Finite m1 e1, Finite m2 e2 =>
      if m2 =? 0 then x
      else if m1 =? 0 then y
      else
        let e := Z.min e1 e2 in
        round (m1 * 2 ^ (e1 - e) + m2 * 2 ^ (e2 - e)) e
  end.

(** [x <= z] and [x > z] for a float [x] and an [int] [z]: the two
    numbers are compared exactly, and every comparison with a nan is
    false. *)
Definition le_Z (x : t) (z : Z) : bool :=
  match x with
  | Finite m e => if 0 <=? e then m * 2 ^ e <=? z else m <=? z * 2 ^ (- e)
  | NegInf => true
  | PosInf | NaN => false
  end.

Definition gt_Z (x : t) (z : Z) : bool :=
  match x with
  | Finite m e => if 0 <=? e then z <? m * 2 ^ e else z * 2 ^ (- e) <? m
  | PosInf => true
  | NegInf | NaN => false
  end.

(** The rational number [m * 2^e]. *)
Definition value (m e : Z) : Q :=
  if 0 <=? e then inject_Z (m * 2 ^ e) else m # Z.to_pos (2 ^ (- e)).

(** What [round(x, 2)] shows: a decimal for a finite [x]; an infinity or
    a nan is returned as it is. *)
Inductive decimal :=
| Decimal (q : Q)
| DecPosInf
| DecNegInf
| DecNaN.

End Float.

(** ** Dates *)

Module Date.

(** The proleptic Gregorian ordinal of [datetime.toordinal]. *)
Definition is_leap (y : Z) : bool :=
  (y mod 4 =? 0) && (negb (y mod 100 =? 0) || (y mod 400 =? 0)).

Definition days_before_year (y : Z) : Z :=
  let y := y - 1 in y * 365 + y / 4 - y / 100 + y / 400.

Definition days_in_month (y m : Z) : Z :=
  if m =? 2 then (if is_leap y then 29 else 28)
  else if (m =? 4) || (m =? 6) || (m =? 9) || (m =? 11) then 30
  else 31.

Definition days_before_month (y m : Z) : Z :=
  match m with
  | 2 => 31 | 3 => 59 | 4 => 90 | 5 => 120 | 6 => 151 | 7 => 181
  | 8 => 212 | 9 => 243 | 10 => 273 | 11 => 304 | 12 => 334
  | _ => 0
  end
  + (if (2 <? m) && is_leap y then 1 else 0).

Definition ymd2ord (y m d : Z) : Z :=
  days_before_year y + days_before_month y m + d.

(** Microseconds of the wall-clock reading since ordinal 0. *)
Definition wall_micros (t : datetime) : Z :=
  (((ymd2ord (year t) (month t) (day t) * 24 + hour t) * 60 + minute t) * 60
   + second t) * 1000000 + microsecond t.

(** The instant denoted by a value: its wall-clock reading minus its UTC
    offset (a naive value is read as UTC). *)
Definition utc_micros (t : datetime) : Z :=
  wall_micros t - default 0 (tzinfo t).

Definition fields (t : datetime) : list Z :=
  [year t; month t; day t; hour t; minute t; second t; microsecond t].

(** Tuple comparison of the wall-clock fields. *)
Fixpoint lex_leb (a b : list Z) : bool :=
  match a, b with
  | [], _ => true
  | _ :: _, [] => false
  | x :: a', y :: b' => (x <? y) || ((x =? y) && lex_leb a' b')
  end.

(** [a >= b] on [datetime]: values with the same offset (or both naive)
    compare by their fields, aware values with different offsets compare
    as instants, and a naive value does not compare with an aware one. *)
Definition ge (a b : datetime) : outcome bool :=
  match tzinfo a, tzinfo b with
  | None, None => Return (lex_leb (fields b) (fields a))
  | Some oa, Some ob =>
      if oa =? ob then Return (lex_leb (fields b) (fields a))
      else Return (utc_micros b <=? utc_micros a)
  | _, _ => Raise TypeError
  end.

(** Well-formed wall-clock fields, as every constructed [datetime] has. *)
Definition valid (t : datetime) : Prop :=
  1 <= year t <= 9999 ∧ 1 <= month t <= 12 ∧
  1 <= day t <= days_in_month (year t) (month t) ∧
  0 <= hour t < 24 ∧ 0 <= minute t < 60 ∧ 0 <= second t < 60 ∧
  0 <= microsecond t < 1000000.

End Date.

(** ** Files, events, environment *)

(** The sidecar record written by [save_package_metadata]. *)
Record metadata := Metadata {
  md_name : string;
  md_version : string;
  md_summary : scalar;
  md_author : scalar;
  md_license : scalar;
  md_home_page : scalar;
  md_download_filename : string;
  md_download_time : string;
  md_package_url : string
}.

(** The record built by [create_summary_report]. *)
Record report := Report {
  rp_download_time : string;
  total_packages_downloaded : nat;
  total_size_mb : Float.decimal;
  rp_packages : list string
}.

Inductive file_content :=
| Artifact (content : string)
| Sidecar (m : metadata)
| ReportJson (r : report)
| Readme (r : report)
| OtherFile.

Inductive event :=
| Get (url : string)
| WriteFile (path : string) (c : file_content)
| Sleep
| GitPublish (dir : string).

(** An item of a parsed feed: the text of its [title] element, [None] when
    the element or its text is missing. *)
Definition feed_item := option string.

(** What the program does not control: the library parser of timestamps,
    the responses of the network, the file system's willingness to write,
    and the clock.  Every oracle but the parser sees the trace so far, so
    a response may depend on what happened before. *)
Record env := Env {
  fromisoformat : string → option datetime;
  get_json : list event → string → option package_info;
  get_feed : list event → string → option (list feed_item);
  get_content : list event → string → option string;
  can_write : list event → string → bool;
  now : list event → string
}.

(** ** The crawler object and its methods *)

Record crawler := Crawler {
  download_dir : string;
  max_packages : Z;
  max_size_mb : Z;
  max_total_size_mb : Z;
  current_total_size : Float.t
}.

(** [__init__] *)
Definition init (download_dir : string) (max_packages max_size_mb : Z) : crawler :=
  {| download_dir := download_dir;
     max_packages := max_packages;
     max_size_mb := max_size_mb;
     max_total_size_mb := 500;
     current_total_size := Float.Finite 0 0 |}.

Record state := State {
  self : crawler;
  files : gmap string file_content;
  trace : list event
}.

(** Computations over the crawler, the file system and the trace that may
    raise. *)
Definition M (A : Type) : Type := state → outcome A * state.

Definition pure {A} (a : A) : M A := λ s, (Return a, s).

#[global] Instance M_ret : MRet M := @pure.
#[global] Instance M_bind : MBind M := λ A B f m s,
  match m s with
  | (Return a, s') => f a s'
  | (Raise e, s') => (Raise e, s')
  end.

Definition lift {A} (o : outcome A) : M A := λ s, (o, s).
Definition raise {A} (e : exn) : M A := λ s, (Raise e, s).
Definition get_self : M crawler := λ s, (Return (self s), s).

(** The three ways in which a state changes: an event is recorded, a file
    is written (and the write recorded), the running total grows. *)
Definition log (ev : event) (s : state) : state :=
  {| self := self s; files := files s; trace := ev :: trace s |}.

Definition store (path : string) (c : file_content) (s : state) : state :=
  {| self := self s;
     files := <[path := c]> (files s);
     trace := WriteFile path c :: trace s |}.

Definition consume (file_size_mb : Float.t) (s : state) : state :=
  {| self := {| download_dir := download_dir (self s);
                max_packages := max_packages (self s);
                max_size_mb := max_size_mb (self s);
                max_total_size_mb := max_total_size_mb (self s);
                current_total_size :=
                  Float.add (current_total_size (self s)) file_size_mb |};
     files := files s;
     trace := trace s |}.

Definition emit (ev : event) : M unit := λ s, (Return tt, log ev s).

(** [try: body except handled: handler]; effects of [body] before the
    exception are kept. *)
Definition try_except {A} (body : M A) (handled : exn → bool) (handler : M A) : M A :=
  λ s, match body s with
       | (Raise e, s') => if handled e then handler s' else (Raise e, s')
       | r => r
       end.

(** ** Pure helpers of the class *)

(** [get_file_size_mb]; the divisor [1024 * 1024] is [2^20]. *)
Definition get_file_size_mb (file_info : file_info) : outcome Float.t :=
  let size_bytes := default 0 (size file_info) in
  Float.int_div_pow2 size_bytes 20.

(** The cutoff of [is_updated_since_july_2025], built in the time zone of
    the parsed upload date. *)
Definition cutoff_date (tz : option Z) : datetime :=
  {| year := 2025; month := 7; day := 1;
     hour := 0; minute := 0; second := 0; microsecond := 0; tzinfo := tz |}.

Definition is_updated_body (E : env) (package_info : package_info) : outcome bool :=
  i ← subscript (info package_info);
  latest_version ← subscript (version i);
  releases ← subscript (releases package_info);
  match releases !! latest_version with
  | Some (first :: _) =>
      upload_time ← subscript (upload_time_iso_8601 first);
      match fromisoformat E (Str.replace_Z upload_time) with
      | Some upload_date => Date.ge upload_date (cutoff_date (tzinfo upload_date))
      | None => Raise ValueError
      end
  | Some [] => Return false
  | None => Return false
  end.

(** [is_updated_since_july_2025]: the [except] clause names three
    exception types; any other would propagate. *)
Definition is_updated_since_july_2025 (E : env) (package_info : package_info) : outcome bool :=
  match is_updated_body E package_info with
  | Raise KeyError | Raise ValueError | Raise IndexError => Return false
  | r => r
  end.

(** One selection loop of [download_package]: the first file, in list
    order, whose name ends in [suffix] and whose size fits. *)
Fixpoint find_suitable (suffix : string) (max_size_mb : Z) (releases : list file_info)
    : outcome (option file_info) :=
  match releases with
  | [] => Return None
  | file_info :: rest =>
      name ← subscript (filename file_info);
      if Str.endswith name suffix then
        file_size_mb ← get_file_size_mb file_info;
        if Float.le_Z file_size_mb max_size_mb
        then Return (Some file_info)
        else find_suitable suffix max_size_mb rest
      else find_suitable suffix max_size_mb rest
  end.

(** The selection of [download_package]: [.tar.gz] first, then [.whl]. *)
Definition select_file (max_size_mb : Z) (package_info : package_info)
    : outcome (option file_info) :=
  i ← subscript (info package_info);
  latest_version ← subscript (version i);
  all ← subscript (releases package_info);
  releases ← subscript (all !! latest_version);
  suitable_file ← find_suitable ".tar.gz" max_size_mb releases;
  match suitable_file with
  | Some f => Return (Some f)
  | None => find_suitable ".whl" max_size_mb releases
  end.

(** [round(x, 2)] on a rational: the nearest hundredth, ties to the even
    one. *)
Definition round_half_even (q : Q) : Z :=
  let f := Qfloor q in
  match (q - inject_Z f ?= 1 # 2)%Q with
  | Lt => f
  | Gt => f + 1
  | Eq => if Z.even f then f else f + 1
  end.

Definition round2 (x : Q) : Q := inject_Z (round_half_even (x * 100)) / 100.

(** [round(x, 2)] on a float: the exact value of a finite [x] is rounded
    to the nearest hundredth (the source returns the float nearest to that
    decimal, which is shown as the decimal). *)
Definition round2_float (x : Float.t) : Float.decimal :=
  match x with
  | Float.Finite m e => Float.Decimal (round2 (Float.value m e))
  | Float.PosInf => Float.DecPosInf
  | Float.NegInf => Float.DecNegInf
  | Float.NaN => Float.DecNaN
  end.

(** [l[:n]]: a negative bound counts from the end. *)
Definition slice_to {A} (n : Z) (l : list A) : list A :=
  if 0 <=? n then take (Z.to_nat n) l
  else take (length l - Z.to_nat (- n))%nat l.

(** ** Effects *)

(** [self.session.get(url)] followed by [raise_for_status()] and the
    decoding of the body; a transport error, a non-success status or an
    undecodable body all surface as one exception ([None] from the
    oracle).  The request is recorded whether or not it succeeds. *)
Definition http_get {A} (oracle : list event → string → option A) (url : string) : M A :=
  λ s,
    match oracle (trace s) url with
    | Some a => (Return a, log (Get url) s)
    | None => (Raise RequestException, log (Get url) s)
    end.

(** [with open(path, 'w') as f: f.write(content)] *)
Definition write_file (E : env) (path : string) (content : file_content) : M unit :=
  λ s,
    if can_write E (trace s) path
    then (Return tt, store path content s)
    else (Raise OSError, s).

(** [os.path.exists(path)] *)
Definition path_exists (path : string) : M bool :=
  λ s, (Return (bool_decide (is_Some (files s !! path))), s).

(** [datetime.now().isoformat()] *)
Definition clock (E : env) : M string := λ s, (Return (now E (trace s)), s).

(** [self.current_total_size += file_size_mb] *)
Definition add_total (file_size_mb : Float.t) : M unit :=
  λ s, (Return tt, consume file_size_mb s).

Definition json_url (package_name : string) : string :=
  "https://pypi.org/pypi/" +:+ package_name +:+ "/json".

(** [get_package_info] *)
Definition get_package_info (E : env) (package_name : string) : M (option package_info) :=
  try_except
    (r ← http_get (get_json E) (json_url package_name); pure (Some r))
    (λ e, match e with RequestException => true | _ => false end)
    (pure None).

(** [save_package_metadata] *)
Definition save_package_metadata (E : env) (package_name : string)
    (package_info : package_info) (filename : string) : M unit :=
  i ← lift (subscript (info package_info));
  v ← lift (subscript (version i));
  su ← lift (subscript (summary i));
  au ← lift (subscript (author i));
  li ← lift (subscript (license i));
  hp ← lift (subscript (home_page i));
  t ← clock E;
  c ← get_self;
  let metadata :=
    {| md_name := package_name;
       md_version := v;
       md_summary := su;
       md_author := au;
       md_license := li;
       md_home_page := hp;
       md_download_filename := filename;
       md_download_time := t;
       md_package_url := "https://pypi.org/project/" +:+ package_name +:+ "/" |} in
  write_file E (Str.path_join (download_dir c) (package_name +:+ "_metadata.json"))
    (Sidecar metadata).

(** [download_package]: the whole body is under [except Exception]. *)
Definition download_package (E : env) (package_name : string)
    (package_info : package_info) : M bool :=
  try_except
    (c ← get_self;
     suitable_file ← lift (select_file (max_size_mb c) package_info);
     match suitable_file with
     | Some suitable_file =>
         file_size_mb ← lift (get_file_size_mb suitable_file);
         c ← get_self;
         if Float.gt_Z (Float.add (current_total_size c) file_size_mb)
              (max_total_size_mb c)
         then pure false
         else
           download_url ← lift (subscript (url suitable_file));
           filename ← lift (subscript (filename suitable_file));
           let file_path := Str.path_join (download_dir c) filename in
           present ← path_exists file_path;
           if (present : bool) then pure true
           else
             content ← http_get (get_content E) download_url;
             _ ← write_file E file_path (Artifact content);
             _ ← add_total file_size_mb;
             _ ← save_package_metadata E package_name package_info filename;
             pure true
     | None => pure false
     end)
    (λ _, true)
    (pure false).

(** [get_popular_packages_fallback] *)
Definition get_popular_packages_fallback : list string :=
  ["requests"; "urllib3"; "certifi"; "charset-normalizer";
   "pip"; "setuptools"; "wheel"; "packaging";
   "numpy"; "pandas"; "matplotlib"; "scipy";
   "flask"; "django"; "fastapi"; "starlette";
   "boto3"; "botocore"; "aws-cdk-lib"; "aws-cli";
   "tensorflow"; "torch"; "transformers"; "openai";
   "pydantic"; "sqlalchemy"; "alembic"; "click";
   "pytest"; "black"; "flake8"; "mypy";
   "jupyter"; "notebook"; "ipython"; "ipykernel"].

Definition rss_urls : list string :=
  ["https://pypi.org/rss/updates.xml"; "https://pypi.org/rss/packages.xml"].

(** The loop over the items of one feed.  [packages] is the list that
    the method fills; it is returned together with the outcome because
    what was appended before an exception stays appended. *)
Fixpoint scan_items (items : list feed_item) (packages : list string)
    : outcome unit * list string :=
  match items with
  | [] => (Return tt, packages)
  | title :: rest =>
      match title with
      | Some text =>
          if String.eqb text "" then scan_items rest packages
          else
            match Str.split_first text with
            | None => (Raise IndexError, packages)
            | Some package_name =>
                if negb (String.eqb package_name "")
                   && negb (bool_decide (package_name ∈ packages))
                then scan_items rest (packages ++ [package_name])
                else scan_items rest packages
            end
      | None => scan_items rest packages
      end
  end.

(** The loop over the feed addresses of [get_recent_packages_from_rss];
    [Some l] is a [return l] from inside the loop. *)
Fixpoint try_feeds (E : env) (urls : list string) (packages : list string)
    : M (option (list string)) :=
  match urls with
  | [] => pure None
  | rss_url :: rest =>
      λ s,
        match http_get (get_feed E) rss_url s with
        | (Return items, s') =>
            match scan_items items packages with
            | (Return _, packages') =>
                match packages' with
                | _ :: _ => (Return (Some (slice_to (max_packages (self s')) packages')), s')
                | [] => try_feeds E rest packages' s'
                end
            | (Raise _, packages') => try_feeds E rest packages' s'
            end
        | (Raise _, s') => try_feeds E rest packages s'
        end
  end.

(** [get_recent_packages_from_rss] *)
Definition get_recent_packages_from_rss (E : env) : M (list string) :=
  r ← try_feeds E rss_urls [];
  match r with
  | Some l => pure l
  | None =>
      c ← get_self;
      pure (slice_to (max_packages c) get_popular_packages_fallback)
  end.

(** [git_commit_and_push]: an external step whose failures are caught
    inside the method. *)
Definition git_commit_and_push : M unit :=
  c ← get_self; emit (GitPublish (download_dir c)).

(** [create_summary_report] *)
Definition create_summary_report (E : env) (downloaded_packages : list string) : M unit :=
  t ← clock E;
  c ← get_self;
  let report :=
    {| rp_download_time := t;
       total_packages_downloaded := length downloaded_packages;
       total_size_mb := round2_float (current_total_size c);
       rp_packages := downloaded_packages |} in
  _ ← write_file E (Str.path_join (download_dir c) "download_report.json") (ReportJson report);
  write_file E (Str.path_join (download_dir c) "README.md") (Readme report).

(** The [for] loop of [crawl_and_download] with its two local variables.
    A descriptor that is an empty object is falsy in the source and is
    skipped at the first test; here it reaches the second test, fails it
    and is skipped there, with the same effects (none). *)
Fixpoint crawl_loop (E : env) (package_list : list string)
    (downloaded_packages : list string) (downloaded_count : Z)
    : M (list string * Z) :=
  match package_list with
  | [] => pure (downloaded_packages, downloaded_count)
  | package_name :: rest =>
      c ← get_self;
      if max_packages c <=? downloaded_count
      then pure (downloaded_packages, downloaded_count)
      else
        package_info ← get_package_info E package_name;
        match package_info with
        | None => crawl_loop E rest downloaded_packages downloaded_count
        | Some package_info =>
            updated ← lift (is_updated_since_july_2025 E package_info);
            if negb updated
            then crawl_loop E rest downloaded_packages downloaded_count
            else
              ok ← download_package E package_name package_info;
              _ ← emit Sleep;
              if (ok : bool)
              then crawl_loop E rest (downloaded_packages ++ [package_name])
                     (downloaded_count + 1)
              else crawl_loop E rest downloaded_packages downloaded_count
        end
  end.

(** [crawl_and_download]; [None] is the bare [return] taken on an empty
    list. *)
Definition crawl_and_download (E : env) (package_list : option (list string))
    : M (option (list string)) :=
  package_list ←
    match package_list with
    | None => get_recent_packages_from_rss E
    | Some l => pure l
    end;
  match package_list with
  | [] => pure None
  | _ :: _ =>
      r ← crawl_loop E package_list [] 0;
      _ ← create_summary_report E r.1;
      _ ← git_commit_and_push;
      pure (Some r.1)
  end.

(** ** Concrete environments

    Fixtures for the examples and the concrete runs below.  The theorems
    quantify over every environment; none depends on this module. *)

Module Fixture.

Definition digit (c : ascii) : option Z :=
  let n := Ascii.N_of_ascii c in
  if ((48 <=? n) && (n <=? 57))%N then Some (Z.of_N n - 48) else None.

(** Exactly [n] decimal digits. *)
Fixpoint number (n : nat) (acc : Z) (s : string) : option (Z * string) :=
  match n with
  | O => Some (acc, s)
  | S n' =>
      match s with
      | String c s' => d ← digit c; number n' (acc * 10 + d) s'
      | EmptyString => None
      end
  end.

Definition expect (c : ascii) (s : string) : option string :=
  match s with
  | String c' s' => if Ascii.eqb c c' then Some s' else None
  | EmptyString => None
  end.

(** [.fff] or [.ffffff], or nothing. *)
Definition fraction (s : string) : option (Z * string) :=
  match s with
  | String "."%char s' =>
      match number 6 0 s' with
      | Some r => Some r
      | None => '(ms, s'') ← number 3 0 s'; Some (ms * 1000, s'')
      end
  | _ => Some (0, s)
  end.

(** [+HH:MM] or [-HH:MM] up to the end of the text, or nothing. *)
Definition offset (s : string) : option (option Z) :=
  match s with
  | EmptyString => Some None
  | String c s' =>
      sign ← (if Ascii.eqb c "+" then Some 1
              else if Ascii.eqb c "-" then Some (-1) else None);
      '(h, s1) ← number 2 0 s';
      s2 ← expect ":" s1;
      '(m, s3) ← number 2 0 s2;
      if String.eqb s3 "" && (h <? 24) && (m <? 60)
      then Some (Some (sign * (h * 3600 + m * 60) * 1000000))
      else None
  end.

(** A parser for the timestamps of the index,
    [YYYY-MM-DDTHH:MM:SS[.ffffff][+HH:MM]], a fragment on which the
    versions of [datetime.fromisoformat] agree.  Anything else is rejected
    here. *)
Definition parse_iso (s : string) : option datetime :=
  '(y, s) ← number 4 0 s;
  s ← expect "-" s;
  '(mo, s) ← number 2 0 s;
  s ← expect "-" s;
  '(d, s) ← number 2 0 s;
  s ← expect "T" s;
  '(h, s) ← number 2 0 s;
  s ← expect ":" s;
  '(mi, s) ← number 2 0 s;
  s ← expect ":" s;
  '(se, s) ← number 2 0 s;
  '(us, s) ← fraction s;
  tz ← offset s;
  if (1 <=? y) && (1 <=? mo) && (mo <=? 12) && (1 <=? d)
     && (d <=? Date.days_in_month y mo) && (h <? 24) && (mi <? 60) && (se <? 60)
  then Some {| year := y; month := mo; day := d; hour := h; minute := mi;
               second := se; microsecond := us; tzinfo := tz |}
  else None.

(** A file of version ["2.0"] of some package. *)
Definition file (name : string) (bytes : Z) (uploaded : string) : file_info :=
  {| filename := Some name;
     url := Some ("https://files.example/" +:+ name);
     size := Some bytes;
     upload_time_iso_8601 := Some uploaded |}.

Definition descriptor (files : list file_info) : package_info :=
  {| info := Some {| version := Some "2.0";
                     summary := Some (SStr "a package");
                     author := Some SNull;
                     license := Some (SStr "MIT");
                     home_page := Some SNull |};
     releases := Some {[ "2.0" := files ]} |}.

(** An index that serves the descriptors of [index] and every artifact,
    has no feed, and a file system that accepts every write. *)
Definition env_of (index : list (string * package_info)) : env :=
  {| fromisoformat := parse_iso;
     get_json := λ _ u,
       snd <$> list_find (λ p, json_url p.1 = u) index ≫= λ p, Some p.2;
     get_feed := λ _ _, None;
     get_content := λ _ u, Some ("bytes of " +:+ u);
     can_write := λ _ _, true;
     now := λ _, "2025-08-01T12:00:00" |}.

Definition start (c : crawler) : state :=
  {| self := c; files := ∅; trace := [] |}.

End Fixture.

(** ** Vocabulary of the properties *)

(** The declared size of a file in bytes; an absent [size] counts as 0. *)
Definition declared_size (f : file_info) : Z := default 0 (size f).

(** The float that [size / (1024 * 1024)] gives for a file: the one
    nearest to the quotient (an infinity where the division raises). *)
Definition size_mb (f : file_info) : Float.t := Float.round (declared_size f) (- 20).

(** The declared size is one that a float holds exactly. *)
Definition exact_size (f : file_info) : Prop := Z.abs (declared_size f) < 2 ^ 53.

(** The per-file cap in bytes. *)
Definition per_file_cap_bytes (max_size_mb : Z) : Z := max_size_mb * 1048576.




(** At or after 1 July 2025, 00:00:00, taken at the UTC offset of [t]
    itself, as instants. *)
Definition on_or_after_cutoff (t : datetime) : Prop :=
  Date.utc_micros (cutoff_date (tzinfo t)) <= Date.utc_micros t.

(** The download directory of the crawler in a state, and the paths that
    [download_package] and [save_package_metadata] build from it. *)
Definition dir (s : state) : string := download_dir (self s).

Definition artifact_path (dir name : string) : string := Str.path_join dir name.

Definition sidecar_path (dir package_name : string) : string :=
  Str.path_join dir (package_name +:+ "_metadata.json").

(** The paths that [create_summary_report] writes. *)
Definition report_path (dir : string) : string :=
  Str.path_join dir "download_report.json".

Definition readme_path (dir : string) : string := Str.path_join dir "README.md".

(** The aggregate-budget test of [download_package] lets [f] through. *)
Definition admitted (s : state) (f : file_info) : Prop :=
  Float.gt_Z (Float.add (current_total_size (self s)) (size_mb f))
    (max_total_size_mb (self s)) = false.

(** The selection yields [f], the budget admits it, and [f] carries the
    address [u] and the name [name]. *)
Definition ready (s : state) (d : package_info) (f : file_info) (u name : string) : Prop :=
  select_file (max_size_mb (self s)) d = Return (Some f) ∧
  admitted s f ∧ url f = Some u ∧ filename f = Some name.

(** The paths through [download_package], in the order of its tests, each
    with the value returned and the state left behind. *)
Inductive download_path (E : env) (n : string) (d : package_info) (s : state)
    : bool → state → Prop :=
| dp_nothing_selected :
    (∀ f, select_file (max_size_mb (self s)) d ≠ Return (Some f)) →
    download_path E n d s false s
| dp_over_budget f :
    select_file (max_size_mb (self s)) d = Return (Some f) →
    ¬ admitted s f →
    download_path E n d s false s
| dp_incomplete f :
    select_file (max_size_mb (self s)) d = Return (Some f) →
    admitted s f →
    url f = None ∨ filename f = None →
    download_path E n d s false s
| dp_present f u name :
    ready s d f u name →
    is_Some (files s !! artifact_path (dir s) name) →
    download_path E n d s true s
| dp_fetch_failed f u name :
    ready s d f u name →
    files s !! artifact_path (dir s) name = None →
    get_content E (trace s) u = None →
    download_path E n d s false (log (Get u) s)
| dp_write_failed f u name c :
    ready s d f u name →
    files s !! artifact_path (dir s) name = None →
    get_content E (trace s) u = Some c →
    can_write E (Get u :: trace s) (artifact_path (dir s) name) = false →
    download_path E n d s false (log (Get u) s)
| dp_sidecar_failed f u name c e :
    ready s d f u name →
    files s !! artifact_path (dir s) name = None →
    get_content E (trace s) u = Some c →
    can_write E (Get u :: trace s) (artifact_path (dir s) name) = true →
    let s' := consume (size_mb f)
                (store (artifact_path (dir s) name) (Artifact c) (log (Get u) s)) in
    save_package_metadata E n d name s' = (Raise e, s') →
    download_path E n d s false s'
| dp_downloaded f u name c m :
    ready s d f u name →
    files s !! artifact_path (dir s) name = None →
    get_content E (trace s) u = Some c →
    can_write E (Get u :: trace s) (artifact_path (dir s) name) = true →
    let s' := consume (size_mb f)
                (store (artifact_path (dir s) name) (Artifact c) (log (Get u) s)) in
    save_package_metadata E n d name s' =
      (Return tt, store (sidecar_path (dir s) n) (Sidecar m) s') →
    download_path E n d s true (store (sidecar_path (dir s) n) (Sidecar m) s').

(** A computation keeps [I] when [I] holds of the state it leaves
    whenever it held of the state it found, whatever the outcome. *)
Definition keeps (I : state → Prop) {A} (m : M A) : Prop :=
  ∀ s, I s → I (m s).2.

(** Events that are not writes, and contents that are not reports. *)
Definition silent (ev : event) : Prop :=
  match ev with WriteFile _ _ => False | _ => True end.

Definition payload (c : file_content) : Prop :=
  match c with Artifact _ | Sidecar _ => True | _ => False end.

(** The running total is within the aggregate cap. *)
Definition within_budget (c : crawler) : Prop :=
  Float.le_Z (current_total_size c) (max_total_size_mb c) = true.

(** A reported total is at most [z]. *)
Definition decimal_le (r : Float.decimal) (z : Z) : Prop :=
  match r with
  | Float.Decimal q => (q <= inject_Z z)%Q
  | Float.DecNegInf => True
  | Float.DecPosInf | Float.DecNaN => False
  end.

(** The total that a write of the report or of its rendering shows. *)
Definition reported_total (ev : event) : option Float.decimal :=
  match ev with
  | WriteFile _ (ReportJson r) | WriteFile _ (Readme r) => Some (total_size_mb r)
  | _ => None
  end.

(** The cap is the one set by [__init__], the running total is within it,
    and so is every total reported so far. *)
Definition budget_inv (s : state) : Prop :=
  max_total_size_mb (self s) = 500 ∧
  within_budget (self s) ∧
  ∀ ev q, ev ∈ trace s → reported_total ev = Some q → decimal_le q 500.

(** A call of a method of the crawler, and a session as a sequence of
    calls.  ([is_updated_since_july_2025] and [get_file_size_mb] have no
    effect and need no entry.) *)
Inductive call :=
| GetPackageInfo (package_name : string)
| DownloadPackage (package_name : string) (package_info : package_info)
| SavePackageMetadata (package_name : string) (package_info : package_info)
    (filename : string)
| GetRecentPackagesFromRss
| GitCommitAndPush
| CreateSummaryReport (downloaded_packages : list string)
| CrawlAndDownload (package_list : option (list string)).

Definition perform (E : env) (c : call) (s : state) : state :=
  match c with
  | GetPackageInfo n => (get_package_info E n s).2
  | DownloadPackage n d => (download_package E n d s).2
  | SavePackageMetadata n d name => (save_package_metadata E n d name s).2
  | GetRecentPackagesFromRss => (get_recent_packages_from_rss E s).2
  | GitCommitAndPush => (git_commit_and_push s).2
  | CreateSummaryReport l => (create_summary_report E l s).2
  | CrawlAndDownload pl => (crawl_and_download E pl s).2
  end.

Definition session (E : env) (calls : list call) (s : state) : state :=
  foldl (λ s c, perform E c s) s calls.

(** What [__init__] sets and no method changes. *)
Definition config (c : crawler) : string * Z * Z * Z :=
  (download_dir c, max_packages c, max_size_mb c, max_total_size_mb c).

Definition configured (k : string * Z * Z * Z) (s : state) : Prop :=
  config (self s) = k.

(** Reading the feed at [url] fails: the request or the parsing of the
    document does, or the extraction of a name from one of its titles. *)
Definition feed_fails (E : env) (tr : list event) (url : string) : Prop :=
  get_feed E tr url = None ∨
  ∃ items e, get_feed E tr url = Some items ∧ (scan_items items []).1 = Raise e.

(** The candidates extracted from the feed at [url], up to the point of
    failure if reading it fails. *)
Definition feed_names (E : env) (tr : list event) (url : string) : list string :=
  match get_feed E tr url with
  | Some items => (scan_items items []).2
  | None => []
  end.

Definition updates_url : string := "https://pypi.org/rss/updates.xml".
Definition packages_url : string := "https://pypi.org/rss/packages.xml".

(** The paths under which artifact bytes were written, newest first. *)
Definition artifact_writes (tr : list event) : list string :=
  omap (λ ev, match ev with WriteFile p (Artifact _) => Some p | _ => None end) tr.

(** The pauses recorded, as a count. *)
Definition pauses (tr : list event) : nat :=
  length (omap (λ ev, match ev with Sleep => Some tt | _ => None end) tr).

(** The addresses requested, newest first. *)
Definition requests (tr : list event) : list string :=
  omap (λ ev, match ev with Get u => Some u | _ => None end) tr.

(** The five fields of [info] that [save_package_metadata] copies are
    all present. *)
Definition complete_info (d : package_info) : Prop :=
  ∃ i, info d = Some i ∧ is_Some (version i) ∧ is_Some (summary i) ∧
       is_Some (author i) ∧ is_Some (license i) ∧ is_Some (home_page i).

(** The paths written, newest first. *)
Definition writes (tr : list event) : list string :=
  omap (λ ev, match ev with WriteFile p _ => Some p | _ => None end) tr.

(** The store holds a file under [p]. *)
Definition holds (p : string) (s : state) : Prop := is_Some (files s !! p).

(** Nothing was written and nothing consumed between [s] and [s']. *)
Definition untouched (s s' : state) : Prop :=
  self s' = self s ∧ files s' = files s ∧ writes (trace s') = writes (trace s).

(** Where a file of the store can come from during a session that
    started in [s0] and has recorded [new] since: it was there at the
    start, it was written as an artifact, or it is a sidecar. *)
Definition origin (s0 : state) (new : list event) (p : string) : Prop :=
  is_Some (files s0 !! p) ∨
  (∃ c, WriteFile p (Artifact c) ∈ new) ∨
  (∃ n, p = sidecar_path (dir s0) n).

(** The candidate [n] has a descriptor, served by the index, whose
    selected file is in the store: it was there when the session started
    in [s0], or the events [new] of the session contain a write of
    artifact bytes under its key. *)
Definition backed (E : env) (s0 : state) (new : list event) (n : string) : Prop :=
  ∃ tr d f name,
    get_json E tr (json_url n) = Some d ∧
    select_file (max_size_mb (self s0)) d = Return (Some f) ∧
    filename f = Some name ∧
    (is_Some (files s0 !! artifact_path (dir s0) name) ∨
     ∃ c, WriteFile (artifact_path (dir s0) name) (Artifact c) ∈ new).

(** The invariant of the loop of [crawl_and_download] for the list [dl]
    of downloaded names. *)
Definition tracked (E : env) (s0 : state) (dl : list string) (s : state) : Prop :=
  config (self s) = config (self s0) ∧
  ∃ new, trace s = new ++ trace s0 ∧
         (∀ p rep, WriteFile p (ReportJson rep) ∉ new) ∧
         (∀ p, is_Some (files s !! p) → origin s0 new p) ∧
         (∀ n, n ∈ dl → backed E s0 new n).

(** ** Scenarios

    Concrete descriptors, environments and states for the examples. *)

Module Scenario.
Import Fixture.

(** Three recent packages with one small source distribution each. *)
Definition alpha_file : file_info :=
  file "alpha-2.0.tar.gz" 500000 "2025-07-02T00:00:00Z".
Definition alpha : package_info := descriptor [alpha_file].
Definition beta : package_info :=
  descriptor [file "beta-2.0.tar.gz" 400000 "2025-08-01T10:00:00Z"].
Definition gamma : package_info :=
  descriptor [file "gamma-2.0.tar.gz" 300000 "2025-09-01T10:00:00Z"].

Definition index : list (string * package_info) :=
  [("alpha", alpha); ("beta", beta); ("gamma", gamma)].

(** The index answers and serves every artifact. *)
Definition online : env := env_of index.

(** The index answers, but no artifact can be fetched. *)
Definition offline : env :=
  {| fromisoformat := fromisoformat online;
     get_json := get_json online;
     get_feed := get_feed online;
     get_content := λ _ _, None;
     can_write := can_write online;
     now := now online |}.

(** The two feeds answer with the given documents. *)
Definition with_feeds (updates packages : option (list feed_item)) : env :=
  {| fromisoformat := fromisoformat online;
     get_json := get_json online;
     get_feed := λ _ u,
       if String.eqb u updates_url then updates
       else if String.eqb u packages_url then packages
       else None;
     get_content := get_content online;
     can_write := can_write online;
     now := now online |}.

(** A fresh crawler with the defaults of the script (per-file cap 1 MB)
    and an empty store. *)
Definition fresh : state := start (init "packages" 100 1).

(** The same with a maximum of two downloads. *)
Definition fresh2 : state := start (init "packages" 2 1).

(** A release list with a wheel first, a source distribution over the
    cap, and a fitting source distribution last. *)
Definition wheel : file_info :=
  file "pkg-2.0-py3-none-any.whl" 1000 "2025-07-02T00:00:00Z".
Definition big_sdist : file_info :=
  file "pkg-2.0-full.tar.gz" 2000000 "2025-07-02T00:00:00Z".
Definition sdist : file_info :=
  file "pkg-2.0.tar.gz" 500000 "2025-07-02T00:00:00Z".
Definition mixed : package_info := descriptor [wheel; big_sdist; sdist].

(** A file without a declared size. *)
Definition unsized_file : file_info :=
  {| filename := Some "unsized-2.0.tar.gz";
     url := Some "https://files.example/unsized-2.0.tar.gz";
     size := None;
     upload_time_iso_8601 := Some "2025-07-02T00:00:00Z" |}.
Definition unsized : package_info := descriptor [unsized_file].


(** A source distribution of [2^1044] bytes, whose size in megabytes is
    beyond the floats, between a wheel and a small source distribution. *)
Definition over_file : file_info :=
  file "over-2.0.tar.gz" (2 ^ 1044) "2025-07-02T00:00:00Z".
Definition overflowing : package_info := descriptor [wheel; over_file; sdist].

(** A file of 300 MB, and a crawler whose per-file cap lets it through. *)
Definition large_file : file_info :=
  file "large-2.0.tar.gz" 314572800 "2025-07-02T00:00:00Z".
Definition large : package_info := descriptor [large_file].

(** Upload times with offsets other than UTC, five hours either side. *)
Definition east : package_info :=
  descriptor [file "east-2.0.tar.gz" 1000 "2025-07-01T00:00:00+05:00"].
Definition west : package_info :=
  descriptor [file "west-2.0.tar.gz" 1000 "2025-06-30T23:59:59-05:00"].

Definition east_time : datetime :=
  {| year := 2025; month := 7; day := 1; hour := 0; minute := 0; second := 0;
     microsecond := 0; tzinfo := Some 18000000000 |}.
Definition west_time : datetime :=
  {| year := 2025; month := 6; day := 30; hour := 23; minute := 59; second := 59;
     microsecond := 0; tzinfo := Some (-18000000000) |}.

(** The states after the first and after the second candidate of a run
    over [alpha], [beta] and more with a maximum of two downloads. *)
Definition after_alpha : state :=
  (crawl_loop online ["alpha"] [] 0 fresh2).2.
Definition after_beta : state :=
  (crawl_loop online ["beta"] ["alpha"] 1 after_alpha).2.

(** A first feed whose second title holds no name, and an empty second
    feed. *)
Definition broken_feeds : env :=
  with_feeds (Some [Some "foo 1.0"; Some " "]) (Some []).

(** A crawler configured with a negative maximum. *)
Definition negative : state := start (init "packages" (-1) 1).

(** A descriptor whose [info] has a version and nothing else. *)
Definition bare : package_info :=
  {| info := Some {| version := Some "2.0"; summary := None; author := None;
                     license := None; home_page := None |};
     releases := Some {[ "2.0" := [file "bare-2.0.tar.gz" 1000 "2025-07-02T00:00:00Z"] ]} |}.

(** A store that holds the artifact of [alpha] already. *)
Definition stocked : state :=
  {| self := init "packages" 100 1;
     files := {[ "packages/alpha-2.0.tar.gz" := Artifact "old bytes" ]};
     trace := [] |}.

End Scenario.

(** * Properties *)

(** ** Strings and sizes *)

Lemma endswith_spec s suffix :
  Str.endswith s suffix = true ↔ ∃ p, s = p +:+ suffix.
Proof.
  induction s as [|c s IH]; cbn [Str.endswith].
  - rewrite orb_false_r, String.eqb_eq. split.
    + intros <-. by exists "".
    + intros [p Hp]. destruct p; simpl in Hp; [done|discriminate].
  - rewrite orb_true_iff, String.eqb_eq, IH. split.
    + intros [<- | [p ->]]; [by exists "" | by exists (String c p)].
    + intros [[|c' p] Hp]; simpl in Hp; [by left|].
      right. exists p. by injection Hp.
Qed.

(** ** Floats *)

Lemma round_cases (m e : Z) :
  (∃ m' e', Float.round m e = Float.Finite m' e') ∨
  Float.round m e = Float.PosInf ∨ Float.round m e = Float.NegInf.
Proof.
  unfold Float.round. repeat case_match; eauto.
Qed.

(** An integer below [2^53] in magnitude divided by [2^20] is a float. *)
Lemma round_exact_mb (n : Z) :
  Z.abs n < 2 ^ 53 → Float.round n (- 20) = Float.Finite n (- 20).
Proof.
  intros Hn. unfold Float.round.
  assert (Z.log2 (Z.abs n) <= 52) as Hlog.
  { destruct (decide (Z.abs n = 0)) as [->|Hne]; [done|].
    assert (Z.log2 (Z.abs n) < 53); [|lia].
    apply Z.log2_lt_pow2; lia. }
  assert ((0 <? Z.max (Z.log2 (Z.abs n) - 52) (- 1074 - - 20)) = false) as ->
    by (apply Z.ltb_ge; lia).
  destruct (n =? 0) eqn:H0; [apply Z.eqb_eq in H0; by subst|].
  assert ((1024 <=? Z.log2 (Z.abs n) + - 20) = false) as ->
    by (apply Z.leb_gt; lia).
  done.
Qed.

Lemma add_zero_r (x : Float.t) (e : Z) : Float.add x (Float.Finite 0 e) = x.
Proof. by destruct x. Qed.

(** On numbers, [x > z] is the negation of [x <= z]. *)
Lemma gt_Z_finite (m e z : Z) :
  Float.gt_Z (Float.Finite m e) z = negb (Float.le_Z (Float.Finite m e) z).
Proof.
  cbn. destruct (0 <=? e); [rewrite Z.leb_antisym|rewrite Z.leb_antisym];
    by rewrite negb_involutive.
Qed.

Lemma le_Z_value (m e z : Z) :
  Float.le_Z (Float.Finite m e) z = true ↔ (Float.value m e <= inject_Z z)%Q.
Proof.
  unfold Float.le_Z, Float.value. destruct (0 <=? e) eqn:He.
  - by rewrite Z.leb_le, <- Zle_Qle.
  - rewrite Z.leb_le. apply Z.leb_gt in He.
    assert (0 < 2 ^ (- e)) by (apply Z.pow_pos_nonneg; lia).
    unfold Qle, inject_Z. cbn [Qnum Qden]. rewrite Z2Pos.id by done. lia.
Qed.

(** A total within a cap is a number or minus infinity, and adding a
    number to it gives no nan; the sum is then within a cap exactly when
    it is not above it. *)
Lemma add_within (x : Float.t) (m e z z' : Z) :
  Float.le_Z x z = true →
  Float.gt_Z (Float.add x (Float.Finite m e)) z' = false →
  Float.le_Z (Float.add x (Float.Finite m e)) z' = true.
Proof.
  intros Hx. destruct x as [m1 e1| | |]; try done.
  assert (∀ y, (∃ a b, y = Float.Finite a b) ∨ y = Float.PosInf ∨ y = Float.NegInf →
               Float.gt_Z y z' = false → Float.le_Z y z' = true) as Hy.
  { intros y [(a & b & ->)|[-> | ->]]; [|done..].
    rewrite gt_Z_finite. by intros ->%negb_false_iff. }
  apply Hy. cbn [Float.add]. repeat case_match; eauto using round_cases.
Qed.

(** ** Sizes *)

(** [get_file_size_mb] returns the float nearest to the quotient, which
    is a number, or raises [OverflowError]. *)
Lemma get_file_size_mb_cases (f : file_info) :
  (get_file_size_mb f = Return (size_mb f) ∧
   ∃ m e, size_mb f = Float.Finite m e) ∨
  get_file_size_mb f = Raise OverflowError.
Proof.
  unfold get_file_size_mb, size_mb, declared_size, Float.int_div_pow2.
  cbv zeta. change (Z.opp 20) with (- 20).
  destruct (round_cases (default 0 (size f)) (- 20)) as [(m & e & ->)|[-> | ->]];
    [left|by right..].
  split; [done|]. by exists m, e.
Qed.

Lemma get_file_size_mb_returns (f : file_info) (x : Float.t) :
  get_file_size_mb f = Return x →
  x = size_mb f ∧ ∃ m e, x = Float.Finite m e.
Proof.
  destruct (get_file_size_mb_cases f) as [[-> (m & e & Hm)]| ->]; [|done].
  intros [= <-]. eauto.
Qed.

(** Below [2^53] bytes the quotient is exact. *)
Lemma get_file_size_mb_exact (f : file_info) :
  exact_size f →
  get_file_size_mb f = Return (Float.Finite (declared_size f) (- 20)).
Proof.
  intros Hf. unfold get_file_size_mb, Float.int_div_pow2. cbv zeta.
  change (Z.opp 20) with (- 20).
  change (default 0 (size f)) with (declared_size f).
  by rewrite round_exact_mb.
Qed.

Lemma le_Z_mb (n cap : Z) :
  Float.le_Z (Float.Finite n (- 20)) cap = (n <=? per_file_cap_bytes cap).
Proof. done. Qed.

(** ** Artifact selection *)

Section Selection.
Context (suffix : string) (cap : Z).






(** Whatever the sizes, a file returned by a selection loop has passed
    the per-file test of the loop. *)
Lemma find_suitable_passed (l : list file_info) (f : file_info) :
  find_suitable suffix cap l = Return (Some f) →
  f ∈ l ∧ get_file_size_mb f = Return (size_mb f) ∧
  Float.le_Z (size_mb f) cap = true.
Proof.
  induction l as [|g l IH]; cbn [find_suitable]; [done|].
  destruct (filename g) as [name|]; cbn; [|done].
  assert (find_suitable suffix cap l = Return (Some f) →
          f ∈ g :: l ∧ get_file_size_mb f = Return (size_mb f) ∧
          Float.le_Z (size_mb f) cap = true) as Hrest.
  { intros (? & ? & ?)%IH. split_and!; [by right|done..]. }
  destruct (Str.endswith name suffix); [|done].
  destruct (get_file_size_mb_cases g) as [[Hg _]|Hg]; rewrite Hg; cbn; [|done].
  destruct (Float.le_Z (size_mb g) cap) eqn:Hle; [|done].
  intros [= <-]. split_and!; [by left|done..].
Qed.

End Selection.

Lemma select_file_passed (cap : Z) (d : package_info) (f : file_info) :
  select_file cap d = Return (Some f) →
  get_file_size_mb f = Return (size_mb f) ∧ Float.le_Z (size_mb f) cap = true.
Proof.
  unfold select_file.
  destruct (info d) as [i|]; cbn; [|done].
  destruct (version i) as [v|]; cbn; [|done].
  destruct (releases d) as [all|]; cbn; [|done].
  destruct (all !! v) as [l|]; cbn; [|done].
  destruct (find_suitable ".tar.gz" cap l) as [[t|]|] eqn:Ht; cbn; [| |done].
  - intros [= <-]. by apply find_suitable_passed in Ht as (_ & ? & ?).
  - intros Hw. by apply find_suitable_passed in Hw as (_ & ? & ?).
Qed.


(** ** Rounding of the reported total *)

Lemma round_half_even_le (q : Q) (n : Z) :
  (q <= inject_Z n)%Q → round_half_even q <= n.
Proof.
  intros Hq. unfold round_half_even.
  pose proof (Qfloor_le q) as Hf.
  assert (Qfloor q <= n) as Hfn.
  { rewrite <- (Qfloor_Z n). by apply Qfloor_resp_le. }
  assert ((0 < q - inject_Z (Qfloor q))%Q → Qfloor q + 1 <= n) as Hup.
  { intros Hpos. assert (inject_Z (Qfloor q) < inject_Z n)%Q as Hlt by lra.
    rewrite <- Zlt_Qlt in Hlt. lia. }
  destruct (Qcompare_spec (q - inject_Z (Qfloor q)) (1 # 2)) as [He|Hl|Hg].
  - destruct (Z.even (Qfloor q)); [done|]. apply Hup. rewrite He. reflexivity.
  - done.
  - apply Hup. lra.
Qed.

Lemma round2_le (x : Q) (n : Z) : (x <= inject_Z n)%Q → (round2 x <= inject_Z n)%Q.
Proof.
  intros Hx. unfold round2.
  assert (round_half_even (x * 100) <= n * 100) as H.
  { apply round_half_even_le. rewrite inject_Z_mult. 
    change (inject_Z 100) with 100%Q. lra. }
  rewrite Zle_Qle, inject_Z_mult in H. change (inject_Z 100) with 100%Q in H.
  apply Qle_shift_div_r; [reflexivity|]. done.
Qed.

(** ** The paths through [download_package] *)

Ltac run :=
  unfold try_except, lift, get_self, pure, emit,
    path_exists, http_get, write_file, add_total, clock, mbind, M_bind, mret, M_ret in *;
  cbn in *.

Lemma save_package_metadata_cases E n d name s :
  (∃ e, save_package_metadata E n d name s = (Raise e, s)) ∨
  (∃ m, save_package_metadata E n d name s = (Return tt, store (sidecar_path (dir s) n) (Sidecar m) s)).
Proof.
  unfold save_package_metadata. run.
  repeat (case_match; simplify_eq/=; eauto).
Qed.

Lemma download_package_path E n d s :
  ∃ b s', download_package E n d s = (Return b, s') ∧ download_path E n d s b s'.
Proof.
  unfold download_package. run.
  destruct (select_file (max_size_mb (self s)) d) as [[f|]|e] eqn:Hsel; cbn.
  2,3: do 2 eexists; split; [done|]; apply dp_nothing_selected; intros ?; by rewrite Hsel.
  destruct (select_file_passed _ _ _ Hsel) as [-> _]. cbn.
  destruct (Float.gt_Z _ _) eqn:Hq; cbn.
  1: { do 2 eexists; split; [done|]. eapply dp_over_budget; [done|].
       unfold admitted. congruence. }
  destruct (url f) as [u|] eqn:Hu; cbn.
  2: { do 2 eexists; split; [done|]. eapply dp_incomplete; eauto. }
  destruct (filename f) as [name|] eqn:Hn; cbn.
  2: { do 2 eexists; split; [done|]. eapply dp_incomplete; eauto. }
  assert (ready s d f u name) as Hready by done.
  case_bool_decide as Hex; cbn.
  { do 2 eexists; split; [done|]. by eapply dp_present. }
  apply eq_None_not_Some in Hex.
  destruct (get_content E (trace s) u) as [c|] eqn:Hc; cbn.
  2: { do 2 eexists; split; [done|]. by eapply dp_fetch_failed. }
  destruct (can_write E (Get u :: trace s) _) eqn:Hw; cbn.
  2: { do 2 eexists; split; [done|]. by eapply dp_write_failed. }
  match goal with |- context [save_package_metadata E n d name ?s0] =>
    destruct (save_package_metadata_cases E n d name s0) as [[e He]|[m Hm]] end.
  - rewrite He. do 2 eexists; split; [done|]. by eapply (dp_sidecar_failed E n d s f u name c e).
  - rewrite Hm. do 2 eexists; split; [done|]. by eapply (dp_downloaded E n d s f u name c m).
Qed.

(** ** Invariants kept by the methods *)

Section Keeps.
Context (I : state → Prop).

Lemma keeps_pure {A} (a : A) : keeps I (pure a).
Proof. by intros s Hs. Qed.

Lemma keeps_lift {A} (o : outcome A) : keeps I (lift o).
Proof. by intros s Hs. Qed.

Lemma keeps_get_self : keeps I get_self.
Proof. by intros s Hs. Qed.

Lemma keeps_clock E : keeps I (clock E).
Proof. by intros s Hs. Qed.

Lemma keeps_path_exists p : keeps I (path_exists p).
Proof. by intros s Hs. Qed.

Lemma keeps_bind {A B} (m : M A) (f : A → M B) :
  keeps I m → (∀ a, keeps I (f a)) → keeps I (m ≫= f).
Proof.
  intros Hm Hf s Hs. unfold mbind, M_bind. specialize (Hm s Hs).
  destruct (m s) as [[a|e] s1]; [by apply Hf|done].
Qed.

Lemma keeps_try_except {A} (body handler : M A) (h : exn → bool) :
  keeps I body → keeps I handler → keeps I (try_except body h handler).
Proof.
  intros Hb Hh s Hs. unfold try_except. specialize (Hb s Hs).
  destruct (body s) as [[a|e] s1]; [done|].
  destruct (h e); [by apply Hh|done].
Qed.

Context (I_log : ∀ ev s, silent ev → I s → I (log ev s)).

Lemma keeps_emit ev : silent ev → keeps I (emit ev).
Proof. intros Hev s Hs. by apply I_log. Qed.

Lemma keeps_http_get {A} (oracle : list event → string → option A) u :
  keeps I (http_get oracle u).
Proof.
  intros s Hs. unfold http_get.
  destruct (oracle (trace s) u); by apply I_log.
Qed.

Lemma keeps_get_package_info E n : keeps I (get_package_info E n).
Proof.
  apply keeps_try_except; [|apply keeps_pure].
  apply keeps_bind; [apply keeps_http_get|intros; apply keeps_pure].
Qed.

Lemma keeps_write_file E p c :
  (∀ s, I s → I (store p c s)) → keeps I (write_file E p c).
Proof.
  intros Hc s Hs. unfold write_file.
  destruct (can_write E (trace s) p); [by apply Hc|done].
Qed.

Lemma keeps_try_feeds E urls acc : keeps I (try_feeds E urls acc).
Proof.
  revert acc. induction urls as [|u urls IH]; intros acc s Hs; cbn [try_feeds].
  - done.
  - pose proof (keeps_http_get (get_feed E) u s Hs) as H1.
    destruct (http_get (get_feed E) u s) as [[items|e] s1]; cbn in H1.
    + destruct (scan_items items acc) as [[[]|e] [|x acc']]; try done; by apply IH.
    + by apply IH.
Qed.

Lemma keeps_get_recent_packages_from_rss E : keeps I (get_recent_packages_from_rss E).
Proof.
  apply keeps_bind; [apply keeps_try_feeds|].
  intros [l|]; [apply keeps_pure|].
  apply keeps_bind; [apply keeps_get_self|intros; apply keeps_pure].
Qed.

Lemma keeps_git_commit_and_push : keeps I git_commit_and_push.
Proof.
  apply keeps_bind; [apply keeps_get_self|]. intros c. by apply keeps_emit.
Qed.

Context (I_sidecar : ∀ n m s, I s → I (store (sidecar_path (dir s) n) (Sidecar m) s)).

Lemma keeps_save_package_metadata E n d name :
  keeps I (save_package_metadata E n d name).
Proof.
  intros s Hs.
  destruct (save_package_metadata_cases E n d name s) as [[e ->]|[m ->]];
    [done|by apply I_sidecar].
Qed.

Context (E : env).
Context (I_download : ∀ n d, keeps I (download_package E n d)).
Context (I_report : ∀ l, keeps I (create_summary_report E l)).

Lemma keeps_crawl_loop l dl cnt : keeps I (crawl_loop E l dl cnt).
Proof.
  revert dl cnt. induction l as [|n l IH]; intros dl cnt; cbn [crawl_loop].
  - apply keeps_pure.
  - apply keeps_bind; [apply keeps_get_self|]. intros c.
    destruct (max_packages c <=? cnt); [apply keeps_pure|].
    apply keeps_bind; [apply keeps_get_package_info|].
    intros [d|]; [|apply IH].
    apply keeps_bind; [apply keeps_lift|]. intros b.
    destruct b; cbn [negb]; [|apply IH].
    apply keeps_bind; [apply I_download|]. intros ok.
    apply keeps_bind; [by apply keeps_emit|]. intros _.
    destruct ok; apply IH.
Qed.

Lemma keeps_crawl_and_download pl : keeps I (crawl_and_download E pl).
Proof.
  apply keeps_bind.
  { destruct pl; [apply keeps_pure|apply keeps_get_recent_packages_from_rss]. }
  intros [|n l]; [apply keeps_pure|].
  apply keeps_bind; [apply keeps_crawl_loop|]. intros r.
  apply keeps_bind; [apply I_report|]. intros _.
  apply keeps_bind; [apply keeps_git_commit_and_push|]. intros _.
  apply keeps_pure.
Qed.
End Keeps.

(** ** The aggregate budget *)

Lemma budget_inv_log ev s : silent ev → budget_inv s → budget_inv (log ev s).
Proof.
  intros Hev (Hcap & Hin & Hrep). split_and!; [done..|].
  intros ev' q [->|Hin']%elem_of_cons Hq; [by destruct ev|by eapply Hrep].
Qed.

Lemma budget_inv_store p c s : payload c → budget_inv s → budget_inv (store p c s).
Proof.
  intros Hc (Hcap & Hin & Hrep). split_and!; [done..|].
  intros ev' q [->|Hin']%elem_of_cons Hq; [by destruct c|by eapply Hrep].
Qed.

Lemma selected_size_finite cap d f :
  select_file cap d = Return (Some f) → ∃ m e, size_mb f = Float.Finite m e.
Proof.
  intros [Hsize _]%select_file_passed.
  by apply get_file_size_mb_returns in Hsize as [_ ?].
Qed.

(** The sum that the budget test lets through is within the cap when
    the running total was. *)
Lemma admitted_within cap d s f :
  select_file cap d = Return (Some f) → within_budget (self s) → admitted s f →
  Float.le_Z (Float.add (current_total_size (self s)) (size_mb f))
    (max_total_size_mb (self s)) = true.
Proof.
  intros (m & e & Hm)%selected_size_finite Hin Hadm.
  unfold admitted in Hadm. rewrite Hm in *. by eapply add_within.
Qed.

Lemma budget_inv_consume cap d f s :
  select_file cap d = Return (Some f) →
  admitted s f → budget_inv s → budget_inv (consume (size_mb f) s).
Proof.
  intros Hsel Hadm (Hcap & Hin & Hrep). split_and!; [done| |done].
  exact (admitted_within cap d s f Hsel Hin Hadm).
Qed.

(** What [download_package] does to the crawler object: nothing, or the
    size of a selected and admitted file is added to the running total. *)
Lemma download_package_consumption E n d s :
  self (download_package E n d s).2 = self s ∨
  ∃ f, select_file (max_size_mb (self s)) d = Return (Some f) ∧ admitted s f ∧
       self (download_package E n d s).2 = self (consume (size_mb f) s).
Proof.
  destruct (download_package_path E n d s) as (b & s' & -> & Hpath).
  destruct Hpath as [| | | | | |f u name c e (Hsel & Hadm & _)|f u name c m (Hsel & Hadm & _)];
    eauto.
Qed.

Lemma keeps_budget_download_package E n d : keeps budget_inv (download_package E n d).
Proof.
  intros s Hs.
  destruct (download_package_path E n d s) as (b & s' & -> & Hpath). cbn.
  destruct Hpath as [| | | | | |f u name c e (Hsel & Hadm & _)|f u name c m (Hsel & Hadm & _)];
    try done; try by apply budget_inv_log.
  - apply (budget_inv_consume (max_size_mb (self s)) d f (store _ _ (log _ s)));
      [done..|].
    by apply budget_inv_store, budget_inv_log.
  - apply budget_inv_store; [done|].
    apply (budget_inv_consume (max_size_mb (self s)) d f (store _ _ (log _ s)));
      [done..|].
    by apply budget_inv_store, budget_inv_log.
Qed.

Lemma keeps_budget_create_summary_report E l :
  keeps budget_inv (create_summary_report E l).
Proof.
  intros s (Hcap & Hin & Hrep). unfold create_summary_report. run.
  assert (decimal_le (round2_float (current_total_size (self s))) 500) as Hround.
  { unfold within_budget in Hin. rewrite Hcap in Hin.
    destruct (current_total_size (self s)) as [m e| | |]; try done.
    by apply (round2_le _ 500), le_Z_value. }
  repeat case_match; simplify_eq/=; split_and!; try done.
  all: intros ev q Hev Hq; cbn in Hev.
  all: repeat (apply elem_of_cons in Hev as [->|Hev]; [by simplify_eq/=|]).
  all: by eapply Hrep.
Qed.

Lemma keeps_budget_perform E c : ∀ s, budget_inv s → budget_inv (perform E c s).
Proof.
  destruct c; cbn [perform].
  - apply keeps_get_package_info, budget_inv_log.
  - apply keeps_budget_download_package.
  - apply keeps_save_package_metadata. intros. by apply budget_inv_store.
  - apply keeps_get_recent_packages_from_rss, budget_inv_log.
  - apply keeps_git_commit_and_push, budget_inv_log.
  - apply keeps_budget_create_summary_report.
  - apply keeps_crawl_and_download.
    + apply budget_inv_log.
    + apply keeps_budget_download_package.
    + apply keeps_budget_create_summary_report.
Qed.

(** C1. In every session on a freshly constructed crawler, whatever the
    methods called and whatever the environment answers: the running
    total never exceeds the aggregate cap of 500 MB, and neither does any
    total written to the report or to its rendering.  The budget test
    lets a file through only when the total plus the file's size is not
    above the cap, which for a total within the cap means that the sum
    stays within the cap, and only [download_package] on such a file
    changes the total. *)
Theorem consumed_within_aggregate_cap (E : env) (directory : string)
    (count_cap size_cap : Z) (fs : gmap string file_content)
    (calls : list call) :
  let s := session E calls
             {| self := init directory count_cap size_cap;
                files := fs; trace := [] |} in
  Float.le_Z (current_total_size (self s)) (max_total_size_mb (self s)) = true ∧
  (∀ ev q, ev ∈ trace s → reported_total ev = Some q →
           decimal_le q (max_total_size_mb (self s))) ∧
  (∀ n d s, self (download_package E n d s).2 = self s ∨
            ∃ f, select_file (max_size_mb (self s)) d = Return (Some f) ∧
                 Float.gt_Z (Float.add (current_total_size (self s)) (size_mb f))
                   (max_total_size_mb (self s)) = false ∧
                 (within_budget (self s) →
                  Float.le_Z (Float.add (current_total_size (self s)) (size_mb f))
                    (max_total_size_mb (self s)) = true) ∧
                 self (download_package E n d s).2 =
                 self (consume (size_mb f) s)).
Proof.
  intros s.
  assert (budget_inv s) as (Hcap & Hin & Hrep).
  { subst s. unfold session.
    assert (budget_inv {| self := init directory count_cap size_cap;
                          files := fs; trace := [] |}) as H0.
    { split_and!; [done|by cbn|]. intros ev q Hev. by apply elem_of_nil in Hev. }
    revert H0.
    generalize {| self := init directory count_cap size_cap;
                  files := fs; trace := [] |}.
    induction calls as [|c calls IH]; intros s0 H0; [done|].
    cbn [foldl]. by apply IH, keeps_budget_perform. }
  split_and!; [done| |].
  { rewrite Hcap. exact Hrep. }
  intros n d s'.
  destruct (download_package_consumption E n d s') as [?|(f & Hsel & Hadm & Hself)];
    [by left|right].
  exists f. split_and!; [done..| |done].
  intros Hwithin. by eapply admitted_within.
Qed.

(** ** Single runs of [download_package] *)

Section Ready.
Context (E : env) (n : string) (d : package_info) (s : state).
Context (f : file_info) (u name : string).
Context (Hready : ready s d f u name).

(** The code up to the existence test, on a selected and admitted file
    that carries an address and a name. *)
Lemma download_package_ready :
  download_package E n d s =
  try_except
    (present ← path_exists (artifact_path (dir s) name);
     if (present : bool) then pure true
     else
       content ← http_get (get_content E) u;
       _ ← write_file E (artifact_path (dir s) name) (Artifact content);
       _ ← add_total (size_mb f);
       _ ← save_package_metadata E n d name;
       pure true)
    (λ _, true) (pure false) s.
Proof.
  destruct Hready as (Hsel & Hadm & Hu & Hn).
  unfold admitted in Hadm.
  unfold download_package. run. rewrite Hsel. cbn.
  destruct (select_file_passed _ _ _ Hsel) as [-> _]. cbn.
  rewrite Hadm. cbn. by rewrite Hu, Hn.
Qed.


Lemma download_package_fetch_failed :
  files s !! artifact_path (dir s) name = None →
  get_content E (trace s) u = None →
  download_package E n d s = (Return false, log (Get u) s).
Proof.
  intros Hnew Hget. rewrite download_package_ready. run.
  rewrite bool_decide_eq_false_2 by (rewrite Hnew; by intros [? [=]]).
  by rewrite Hget.
Qed.


End Ready.

(** The running total changes only after the artifact has been fetched
    and written. *)
Lemma consumption_after_write E n d s :
  self (download_package E n d s).2 ≠ self s →
  ∃ f u name c rest,
    ready s d f u name ∧ get_content E (trace s) u = Some c ∧
    trace (download_package E n d s).2 =
      rest ++ WriteFile (artifact_path (dir s) name) (Artifact c) :: Get u :: trace s.
Proof.
  destruct (download_package_path E n d s) as (b & s' & -> & Hpath). cbn.
  destruct Hpath as [| | | | | |f u name c e ? ? ?|f u name c m ? ? ?]; try done.
  - intros _. by exists f, u, name, c, [].
  - intros _. by exists f, u, name, c, [WriteFile (sidecar_path (dir s) n) (Sidecar m)].
Qed.

(** C2 (amended). The running total is raised only after the artifact has
    been fetched and written.  For a selected file that passes the budget
    test and is not yet stored, a failed fetch makes [download_package]
    return [False] with nothing consumed: the running total after the
    attempt is the one before it, and the only trace of the attempt is
    the request. *)
Theorem failed_fetch_consumes_nothing (E : env) (n : string) (d : package_info)
    (s : state) (f : file_info) (u name : string) :
  ready s d f u name →
  files s !! artifact_path (dir s) name = None →
  get_content E (trace s) u = None →
  download_package E n d s = (Return false, log (Get u) s) ∧
  current_total_size (self (download_package E n d s).2) = current_total_size (self s) ∧
  files (download_package E n d s).2 = files s.
Proof.
  intros Hready Hnew Hget.
  by rewrite (download_package_fetch_failed E n d s f u name Hready Hnew Hget).
Qed.


(** ** Dates against the cutoff *)

Section Cutoff.
Import Date.

Lemma days_before_year_succ y :
days_before_year (y + 1) = days_before_year y + 365 + (if is_leap y then 1 else 0).
Proof.
unfold days_before_year, is_leap.
replace (y + 1 - 1) with y by lia.
destruct (y mod 4 =? 0) eqn:H4; destruct (y mod 100 =? 0) eqn:H100;
  destruct (y mod 400 =? 0) eqn:H400; cbn [andb orb negb];
  Z.div_mod_to_equations; lia.
Qed.

Lemma days_before_year_mono y y' : y <= y' → days_before_year y <= days_before_year y'.
Proof. unfold days_before_year. intros H. Z.div_mod_to_equations. lia. Qed.

Lemma month_cases m : 1 <= m <= 12 →
m = 1 ∨ m = 2 ∨ m = 3 ∨ m = 4 ∨ m = 5 ∨ m = 6 ∨ m = 7 ∨ m = 8 ∨ m = 9 ∨ m = 10 ∨ m = 11 ∨ m = 12.
Proof. lia. Qed.

Lemma day_of_year_bounds y m d :
1 <= m <= 12 → 1 <= d <= days_in_month y m →
1 <= days_before_month y m + d <= 365 + (if is_leap y then 1 else 0).
Proof.
intros Hm Hd. unfold days_before_month, days_in_month in *. revert Hd.
destruct (is_leap y); intros Hd;
  destruct (month_cases m Hm) as [->|[->|[->|[->|[->|[->|[->|[->|[->|[->|[->| ->]]]]]]]]]]];
  cbn in *; lia.
Qed.

(** The ordinal of a date against that of 1 July 2025. *)
Lemma ordinal_against_cutoff y m d :
1 <= m <= 12 → 1 <= d <= days_in_month y m →
(y < 2025 ∨ y = 2025 ∧ m < 7 → ymd2ord y m d < 739433) ∧
(y = 2025 ∧ m = 7 → ymd2ord y m d = 739432 + d) ∧
(2025 < y ∨ y = 2025 ∧ 7 < m → 739433 < ymd2ord y m d).
Proof.
intros Hm Hd. unfold ymd2ord.
pose proof (day_of_year_bounds y m d Hm Hd) as Hdoy.
pose proof (days_before_year_succ y) as Hsucc.
assert (y = 2025 → 1 <= d <= days_in_month 2025 m ∧
        days_before_year y + days_before_month y m =
        739251 + days_before_month 2025 m) as H2025 by (by intros ->).
clear Hd. split_and!.
- intros [Hlt|[Hy Hlt]].
  + pose proof (days_before_year_mono (y + 1) 2025 ltac:(lia)) as Hmono.
    change (days_before_year 2025) with 739251 in Hmono. lia.
  + destruct (H2025 Hy) as [Hd ->]. revert Hd. unfold days_before_month, days_in_month.
    change (is_leap 2025) with false.
    destruct (month_cases m Hm) as [->|[->|[->|[->|[->|[->|[->|[->|[->|[->|[->| ->]]]]]]]]]]];
      cbn; lia.
- intros [Hy ->]. destruct (H2025 Hy) as [_ ->].
  change (days_before_month 2025 7) with 181. lia.
- intros [Hlt|[Hy Hlt]].
  + pose proof (days_before_year_mono 2026 y ltac:(lia)) as Hmono.
    change (days_before_year 2026) with 739616 in Hmono. lia.
  + destruct (H2025 Hy) as [Hd ->]. revert Hd. unfold days_before_month, days_in_month.
    change (is_leap 2025) with false.
    destruct (month_cases m Hm) as [->|[->|[->|[->|[->|[->|[->|[->|[->|[->|[->| ->]]]]]]]]]]];
      cbn; lia.
Qed.

(** Against the cutoff, the comparison of the fields is the comparison of
  the wall-clock readings. *)
Lemma cutoff_order (t : datetime) :
valid t →
lex_leb (fields (cutoff_date (tzinfo t))) (fields t) = true ↔
wall_micros (cutoff_date (tzinfo t)) <= wall_micros t.
Proof.
intros (Hy & Hm & Hd & Hh & Hmi & Hs & Hus).
change (wall_micros (cutoff_date (tzinfo t))) with 63887011200000000.
unfold wall_micros.
destruct (ordinal_against_cutoff _ _ _ Hm Hd) as (Hbefore & Hsame & Hafter).
cbn [fields cutoff_date lex_leb year month day hour minute second microsecond].
assert (∀ c a, c <= a → (c <? a) || (c =? a) && true = true) as Hz.
{ intros c a Ha. destruct (Z.ltb_spec c a); [done|].
  destruct (Z.eqb_spec c a); [done|lia]. }
rewrite (Hz 0 (microsecond t)) by lia. rewrite (Hz 0 (second t)) by lia.
rewrite (Hz 0 (minute t)) by lia. rewrite (Hz 0 (hour t)) by lia.
rewrite (Hz 1 (day t)) by lia.
destruct (Z.ltb_spec 2025 (year t)); destruct (Z.eqb_spec 2025 (year t));
  destruct (Z.ltb_spec 7 (month t)); destruct (Z.eqb_spec 7 (month t));
  cbn [orb andb]; split; intros ?; first [done | lia | exfalso; lia].
Qed.

Lemma ge_cutoff (t : datetime) :
ge t (cutoff_date (tzinfo t)) =
Return (lex_leb (fields (cutoff_date (tzinfo t))) (fields t)).
Proof.
unfold ge. cbn [tzinfo cutoff_date].
destruct (tzinfo t) as [o|]; [|done]. by rewrite Z.eqb_refl.
Qed.

Lemma on_or_after_cutoff_wall (t : datetime) :
on_or_after_cutoff t ↔ wall_micros (cutoff_date (tzinfo t)) <= wall_micros t.
Proof. unfold on_or_after_cutoff, utc_micros. cbn [tzinfo cutoff_date]. lia. Qed.

End Cutoff.

(** ** Eligibility *)

Local Ltac not_eligible :=
  exists false; split; [done|]; split; [done|];
  intros (? & ? & ? & ? & ? & ? & ? & ? & ? & ? & ? & ? & ? & _); congruence.

(** C5 (amended). [is_updated_since_july_2025] never raises.  It returns
    [True] exactly when the latest version is a key of [releases], its
    list of files is not empty, the upload time of the first file parses,
    and the parsed time is at or after 1 July 2025, 00:00:00 taken at the
    time's own UTC offset; for the UTC times of the index that is the one
    instant 2025-07-01T00:00:00Z.  A missing field or a time that does not
    parse gives [False]. *)
Theorem eligible_from_cutoff_at_own_offset (E : env) (d : package_info) :
  (∀ i v all first rest ts t,
     info d = Some i → version i = Some v → releases d = Some all →
     all !! v = Some (first :: rest) → upload_time_iso_8601 first = Some ts →
     fromisoformat E (Str.replace_Z ts) = Some t → Date.valid t) →
  ∃ b, is_updated_since_july_2025 E d = Return b ∧
       (b = true ↔
        ∃ i v all first rest ts t,
          info d = Some i ∧ version i = Some v ∧ releases d = Some all ∧
          all !! v = Some (first :: rest) ∧
          upload_time_iso_8601 first = Some ts ∧
          fromisoformat E (Str.replace_Z ts) = Some t ∧
          on_or_after_cutoff t ∧
          (tzinfo t = Some 0 →
           Date.utc_micros (cutoff_date (Some 0)) <= Date.utc_micros t)).
Proof.
  intros Hvalid.
  unfold is_updated_since_july_2025, is_updated_body.
  destruct (info d) as [i|] eqn:Hi; cbn; [|not_eligible].
  destruct (version i) as [v|] eqn:Hv; cbn; [|not_eligible].
  destruct (releases d) as [all|] eqn:Hr; cbn; [|not_eligible].
  destruct (all !! v) as [[|first rest]|] eqn:Hl; cbn; [not_eligible| |not_eligible].
  destruct (upload_time_iso_8601 first) as [ts|] eqn:Hts; cbn; [|not_eligible].
  destruct (fromisoformat E (Str.replace_Z ts)) as [t|] eqn:Ht; cbn; [|not_eligible].
  rewrite ge_cutoff.
  specialize (Hvalid i v all first rest ts t eq_refl Hv eq_refl Hl Hts Ht).
  pose proof (cutoff_order t Hvalid) as Horder.
  rewrite <- on_or_after_cutoff_wall in Horder.
  eexists. split; [done|]. rewrite Horder. split.
  - intros Hon. exists i, v, all, first, rest, ts, t. split_and!; try done.
    intros Htz. unfold on_or_after_cutoff in Hon. by rewrite Htz in Hon.
  - intros (i' & v' & all' & first' & rest' & ts' & t' & ? & ? & ? & ? & ? & ? & Hon & _).
    by simplify_eq.
Qed.

(** ** The configuration is constant *)

Lemma is_updated_returns E d : ∃ b, is_updated_since_july_2025 E d = Return b.
Proof.
  unfold is_updated_since_july_2025, is_updated_body.
  destruct (info d) as [i|]; cbn; [|by eexists].
  destruct (version i) as [v|]; cbn; [|by eexists].
  destruct (releases d) as [all|]; cbn; [|by eexists].
  destruct (all !! v) as [[|first rest]|]; cbn; [by eexists| |by eexists].
  destruct (upload_time_iso_8601 first) as [ts|]; cbn; [|by eexists].
  destruct (fromisoformat E (Str.replace_Z ts)) as [t|]; cbn; [|by eexists].
  rewrite ge_cutoff. by eexists.
Qed.

Lemma get_package_info_cases E n s :
  (get_json E (trace s) (json_url n) = None ∧
   get_package_info E n s = (Return None, log (Get (json_url n)) s)) ∨
  (∃ d, get_json E (trace s) (json_url n) = Some d ∧
        get_package_info E n s = (Return (Some d), log (Get (json_url n)) s)).
Proof.
  unfold get_package_info. run.
  destruct (get_json E (trace s) (json_url n)) as [d|]; eauto.
Qed.

Lemma download_package_returns E n d s :
  ∃ b, (download_package E n d s).1 = Return b.
Proof. destruct (download_package_path E n d s) as (b & s' & -> & _). by exists b. Qed.

Section Config.
Context (k : string * Z * Z * Z).

Lemma configured_log ev s : silent ev → configured k s → configured k (log ev s).
Proof. done. Qed.

Lemma keeps_config_download_package E n d : keeps (configured k) (download_package E n d).
Proof.
  intros s Hs.
  destruct (download_package_path E n d s) as (b & s' & -> & Hpath).
  by destruct Hpath.
Qed.

Lemma keeps_config_crawl_loop E l dl cnt : keeps (configured k) (crawl_loop E l dl cnt).
Proof.
  apply keeps_crawl_loop;
    [apply configured_log|apply keeps_config_download_package].
Qed.
End Config.

Lemma crawl_loop_max_packages E l dl cnt s :
  max_packages (self (crawl_loop E l dl cnt s).2) = max_packages (self s).
Proof.
  pose proof (keeps_config_crawl_loop (config (self s)) E l dl cnt s eq_refl) as H.
  unfold configured, config in H. by simplify_eq.
Qed.

(** ** The loop of [crawl_and_download] *)

Lemma crawl_loop_returns E l dl cnt s :
  ∃ r, (crawl_loop E l dl cnt s).1 = Return r.
Proof.
  revert dl cnt s. induction l as [|n l IH]; intros dl cnt s; cbn [crawl_loop].
  - by eexists.
  - run. destruct (max_packages (self s) <=? cnt); [by eexists|].
    destruct (get_package_info_cases E n s) as [[_ ->]|(d & _ & ->)]; [apply IH|].
    destruct (is_updated_returns E d) as [b ->]. cbn.
    destruct b; cbn; [|apply IH].
    destruct (download_package_path E n d (log (Get (json_url n)) s))
      as (ok & s' & -> & _).
    destruct ok; apply IH.
Qed.

(** Once the count has reached the maximum, the loop ends at once. *)
Lemma crawl_loop_full E l dl cnt s :
  max_packages (self s) <= cnt →
  crawl_loop E l dl cnt s = (Return (dl, cnt), s).
Proof.
  intros Hfull. destruct l as [|n l]; [done|]. cbn [crawl_loop]. run.
  by replace (max_packages (self s) <=? cnt) with true by lia.
Qed.

(** The loop over a concatenation is the loop over the first part
    followed by the loop over the second. *)
Lemma crawl_loop_app E l1 l2 dl cnt s :
  crawl_loop E (l1 ++ l2) dl cnt s =
  (r ← crawl_loop E l1 dl cnt; crawl_loop E l2 r.1 r.2) s.
Proof.
  revert dl cnt s. induction l1 as [|n l1 IH]; intros dl cnt s; [done|].
  cbn [app crawl_loop]. run.
  destruct (max_packages (self s) <=? cnt) eqn:Hfull.
  { symmetry. apply crawl_loop_full. lia. }
  destruct (get_package_info_cases E n s) as [[_ ->]|(d & _ & ->)]; [apply IH|].
  destruct (is_updated_returns E d) as [b ->]. cbn.
  destruct b; cbn; [|apply IH].
  destruct (download_package_path E n d (log (Get (json_url n)) s))
    as (ok & s' & -> & _).
  destruct ok; apply IH.
Qed.

(** C6. The loop of [crawl_and_download] stops as soon as the count of
    successful downloads has reached [max_packages]: if it has after the
    candidates [l1], then the loop over [l1 ++ l2] ends with the result
    and in the state, trace included, of the loop over [l1], so that no
    candidate of [l2] is looked at.  In particular, with a maximum of 2
    and two candidates [a], [b] whose downloads succeed, a third
    candidate [c] causes no request, no test and no selection. *)
Theorem crawl_stops_at_max_packages (E : env) (s : state) :
  (∀ l1 l2 dl cnt dl' cnt' s',
     crawl_loop E l1 dl cnt s = (Return (dl', cnt'), s') →
     max_packages (self s) <= cnt' →
     crawl_loop E (l1 ++ l2) dl cnt s = (Return (dl', cnt'), s')) ∧
  (∀ a b c sa sb,
     max_packages (self s) = 2 →
     crawl_loop E [a] [] 0 s = (Return ([a], 1), sa) →
     crawl_loop E [b] [a] 1 sa = (Return ([a; b], 2), sb) →
     crawl_loop E [a; b; c] [] 0 s = (Return ([a; b], 2), sb)).
Proof.
  assert (∀ l1 l2 dl cnt dl' cnt' s',
     crawl_loop E l1 dl cnt s = (Return (dl', cnt'), s') →
     max_packages (self s) <= cnt' →
     crawl_loop E (l1 ++ l2) dl cnt s = (Return (dl', cnt'), s')) as Hstop.
  { intros l1 l2 dl cnt dl' cnt' s' Hrun Hfull.
    rewrite crawl_loop_app. unfold mbind, M_bind. rewrite Hrun. cbn.
    apply crawl_loop_full.
    pose proof (crawl_loop_max_packages E l1 dl cnt s) as Hmax.
    rewrite Hrun in Hmax. cbn in Hmax. lia. }
  split; [exact Hstop|].
  intros a b c sa sb Hmax Ha Hb.
  apply (Hstop [a; b] [c]); [|lia].
  change [a; b] with ([a] ++ [b]).
  rewrite crawl_loop_app. unfold mbind, M_bind. by rewrite Ha.
Qed.

(** ** The resolver of candidates *)

Lemma scan_items_outcome items acc acc' :
  (scan_items items acc).1 = (scan_items items acc').1.
Proof.
  revert acc acc'. induction items as [|[text|] items IH]; intros acc acc';
    cbn [scan_items]; [done| |apply IH].
  destruct (String.eqb text ""); [apply IH|].
  destruct (Str.split_first text) as [name|]; [|done].
  destruct (negb (String.eqb name "") && negb (bool_decide (name ∈ acc)));
    destruct (negb (String.eqb name "") && negb (bool_decide (name ∈ acc')));
    apply IH.
Qed.

Lemma length_slice_to {A} (k : Z) (l : list A) :
  0 <= k → Z.of_nat (length (slice_to k l)) <= k.
Proof.
  intros Hk. unfold slice_to. replace (0 <=? k) with true by lia.
  rewrite length_take. lia.
Qed.

Lemma try_feeds_returns E urls acc s :
  ∃ r s', try_feeds E urls acc s = (Return r, s') ∧ self s' = self s ∧
          ∀ l, r = Some l → ∃ names, l = slice_to (max_packages (self s)) names.
Proof.
  revert acc s. induction urls as [|u urls IH]; intros acc s; cbn [try_feeds].
  - exists None, s. by split_and!.
  - unfold http_get.
    assert (∀ acc', ∃ r s', try_feeds E urls acc' (log (Get u) s) = (Return r, s') ∧
              self s' = self s ∧
              ∀ l, r = Some l → ∃ names, l = slice_to (max_packages (self s)) names)
      as Hrest by (intros acc'; apply (IH acc' (log (Get u) s))).
    destruct (get_feed E (trace s) u) as [items|]; [|apply Hrest].
    destruct (scan_items items acc) as [[[]|e] [|x acc']]; try apply Hrest.
    eexists _, _. split_and!; [done..|]. intros l [= <-]. by eexists.
Qed.

(** One round of the loop over the feed addresses. *)
Lemma try_feeds_cons E u urls acc s :
  try_feeds E (u :: urls) acc s =
  match get_feed E (trace s) u with
  | None => try_feeds E urls acc (log (Get u) s)
  | Some items =>
      match scan_items items acc with
      | (Return _, x :: l) =>
          (Return (Some (slice_to (max_packages (self s)) (x :: l))), log (Get u) s)
      | (_, acc') => try_feeds E urls acc' (log (Get u) s)
      end
  end.
Proof.
  cbn [try_feeds]. unfold http_get.
  destruct (get_feed E (trace s) u) as [items|]; [|done].
  by destruct (scan_items items acc) as [[[]|e] [|x l]].
Qed.

Lemma feed_fails_scan E tr u items acc :
  feed_fails E tr u → get_feed E tr u = Some items →
  ∃ e, (scan_items items acc).1 = Raise e.
Proof.
  intros [Hnone|(items' & e & Hsome & Hraise)] Hitems; [congruence|].
  rewrite Hsome in Hitems. injection Hitems as <-.
  exists e. by rewrite (scan_items_outcome items' acc []).
Qed.

(** The two feeds leave nothing to return. *)
Lemma feed_fallback (E : env) (s : state) :
  (feed_fails E (trace s) updates_url ∧
   feed_fails E (Get updates_url :: trace s) packages_url) ∨
  (feed_names E (trace s) updates_url = [] ∧
   (feed_fails E (Get updates_url :: trace s) packages_url ∨
    feed_names E (Get updates_url :: trace s) packages_url = [])) →
  get_recent_packages_from_rss E s =
  (Return (slice_to (max_packages (self s)) get_popular_packages_fallback),
   log (Get packages_url) (log (Get updates_url) s)).
Proof.
  intros Hcond.
  set (s1 := log (Get updates_url) s).
  set (s2 := log (Get packages_url) s1).
  assert (∀ acc, (acc = [] ∧ feed_names E (trace s1) packages_url = []) ∨
                 feed_fails E (trace s1) packages_url →
                 try_feeds E [packages_url] acc s1 = (Return None, s2)) as Hsecond.
  { intros acc Hacc. rewrite try_feeds_cons.
    destruct (get_feed E (trace s1) packages_url) as [items|] eqn:Hfeed; [|done].
    destruct (scan_items items acc) as [[[]|e] [|x l]] eqn:Hscan; try done.
    destruct Hacc as [[-> Hnames]|Hfails].
    - unfold feed_names in Hnames. rewrite Hfeed, Hscan in Hnames. done.
    - destruct (feed_fails_scan E _ _ items acc Hfails Hfeed) as [e He].
      by rewrite Hscan in He. }
  assert (try_feeds E rss_urls [] s = (Return None, s2)) as Hfirst.
  { unfold rss_urls. fold updates_url packages_url. rewrite try_feeds_cons.
    destruct (get_feed E (trace s) updates_url) as [items|] eqn:Hfeed.
    - destruct (scan_items items []) as [o acc] eqn:Hscan.
      assert ((acc = [] ∧ feed_names E (trace s1) packages_url = []) ∨
              feed_fails E (trace s1) packages_url) as Hacc.
      { destruct Hcond as [[_ H2]|[Hnames [H2|H2]]]; auto.
        left. unfold feed_names in Hnames. by rewrite Hfeed, Hscan in Hnames. }
      destruct o as [[]|e], acc as [|x l]; try by apply Hsecond.
      exfalso. destruct Hcond as [[H1 _]|[Hnames _]].
      + destruct (feed_fails_scan E _ _ items [] H1 Hfeed) as [e He].
        by rewrite Hscan in He.
      + unfold feed_names in Hnames. by rewrite Hfeed, Hscan in Hnames.
    - apply Hsecond. destruct Hcond as [[_ H2]|[_ [H2|H2]]]; auto. }
  unfold get_recent_packages_from_rss, mbind, M_bind. by rewrite Hfirst.
Qed.

(** C7 (amended). If both feeds fail, or if no candidate is extracted from
    the first feed and the second feed fails or yields none, the resolver
    returns the hardcoded list cut by [[:max_packages]], after one request
    to each feed; for a non-negative maximum the cut is the prefix of that
    length.  For a non-negative maximum the resolver returns, in every
    case, a list no longer than the maximum. *)
Theorem resolver_falls_back (E : env) (s : state) :
  ((feed_fails E (trace s) updates_url ∧
    feed_fails E (Get updates_url :: trace s) packages_url) ∨
   (feed_names E (trace s) updates_url = [] ∧
    (feed_fails E (Get updates_url :: trace s) packages_url ∨
     feed_names E (Get updates_url :: trace s) packages_url = [])) →
   get_recent_packages_from_rss E s =
   (Return (slice_to (max_packages (self s)) get_popular_packages_fallback),
    log (Get packages_url) (log (Get updates_url) s))) ∧
  (0 <= max_packages (self s) →
   slice_to (max_packages (self s)) get_popular_packages_fallback =
   take (Z.to_nat (max_packages (self s))) get_popular_packages_fallback) ∧
  (0 <= max_packages (self s) →
   ∃ l s', get_recent_packages_from_rss E s = (Return l, s') ∧
           Z.of_nat (length l) <= max_packages (self s)).
Proof.
  split_and!.
  - apply feed_fallback.
  - intros Hk. unfold slice_to. by replace (0 <=? max_packages (self s)) with true by lia.
  - intros Hk. unfold get_recent_packages_from_rss, mbind, M_bind.
    destruct (try_feeds_returns E rss_urls [] s) as (r & s' & -> & Hself & Hr).
    destruct r as [l|].
    + destruct (Hr l eq_refl) as [names ->].
      eexists _, _. split; [done|]. by apply length_slice_to.
    + unfold get_self, pure. rewrite Hself.
      eexists _, _. split; [done|]. by apply length_slice_to.
Qed.

(** ** Paths of artifacts and of sidecars *)

Lemma last_app p x : x ≠ "" → Str.last (p +:+ x) = Str.last x.
Proof.
  intros Hx. induction p as [|c p IH]; [done|].
  change (String c p +:+ x) with (String c (p +:+ x)).
  destruct (p +:+ x) as [|c' r] eqn:Heq; [|exact IH].
  destruct p; [done|discriminate].
Qed.

Lemma path_join_suffix a b : ∃ p, Str.path_join a b = p +:+ b.
Proof.
  unfold Str.path_join.
  destruct (Str.startswith b "/"); [by exists ""|].
  destruct (String.eqb a "" || Str.endswith a "/"); [by exists a|].
  exists (a +:+ "/"). 
  induction a as [|c a IH]; [done|].
  change (String c (a +:+ "/" +:+ b) = String c ((a +:+ "/") +:+ b)). by f_equal.
Qed.

Lemma last_path_join a b : b ≠ "" → Str.last (Str.path_join a b) = Str.last b.
Proof.
  intros Hb. destruct (path_join_suffix a b) as [p ->]. by apply last_app.
Qed.

Lemma last_endswith s suffix :
  suffix ≠ "" → Str.endswith s suffix = true → Str.last s = Str.last suffix.
Proof.
  intros Hs [p ->]%endswith_spec. by apply last_app.
Qed.

Lemma app_not_empty p x : x ≠ "" → p +:+ x ≠ "".
Proof. intros Hx. destruct p; [done|discriminate]. Qed.

(** An artifact and a sidecar never share a path. *)
Lemma artifact_not_sidecar dir name n :
  Str.endswith name ".tar.gz" = true ∨ Str.endswith name ".whl" = true →
  artifact_path dir name ≠ sidecar_path dir n.
Proof.
  intros Hname Heq. apply (f_equal Str.last) in Heq.
  unfold artifact_path, sidecar_path in Heq.
  rewrite (last_path_join dir (n +:+ "_metadata.json")) in Heq
    by (by apply app_not_empty).
  rewrite (last_app n "_metadata.json") in Heq by done.
  assert (name ≠ "") as Hne.
  { destruct Hname as [[p ->]%endswith_spec|[p ->]%endswith_spec]; by apply app_not_empty. }
  rewrite last_path_join in Heq by done.
  destruct Hname as [H|H]; apply last_endswith in H; try done;
    rewrite H in Heq; discriminate.
Qed.

Lemma find_suitable_suffix suffix cap l f :
  find_suitable suffix cap l = Return (Some f) →
  ∃ name, filename f = Some name ∧ Str.endswith name suffix = true.
Proof.
  induction l as [|g l IH]; cbn [find_suitable]; [done|].
  destruct (filename g) as [name|] eqn:Hn; cbn; [|done].
  destruct (Str.endswith name suffix) eqn:Hs; [|done].
  destruct (get_file_size_mb g) as [x|]; cbn; [|done].
  destruct (Float.le_Z x cap); [|done].
  intros [= <-]. eauto.
Qed.

Lemma select_file_suffix cap d f name :
  select_file cap d = Return (Some f) → filename f = Some name →
  Str.endswith name ".tar.gz" = true ∨ Str.endswith name ".whl" = true.
Proof.
  unfold select_file.
  destruct (info d) as [i|]; cbn; [|done].
  destruct (version i) as [v|]; cbn; [|done].
  destruct (releases d) as [all|]; cbn; [|done].
  destruct (all !! v) as [l|]; cbn; [|done].
  destruct (find_suitable ".tar.gz" cap l) as [[g|]|] eqn:Ht; cbn; [| |done].
  - intros [= <-] Hn. apply find_suitable_suffix in Ht as (name' & Hn' & Hs).
    left. congruence.
  - intros Hw Hn. apply find_suitable_suffix in Hw as (name' & Hn' & Hs).
    right. congruence.
Qed.

(** ** Files without a declared size *)

Lemma save_package_metadata_complete E n d name s :
  complete_info d →
  can_write E (trace s) (sidecar_path (dir s) n) = true →
  ∃ m, save_package_metadata E n d name s =
       (Return tt, store (sidecar_path (dir s) n) (Sidecar m) s).
Proof.
  intros (i & Hi & [v Hv] & [su Hsu] & [au Hau] & [li Hli] & [hp Hhp]) Hw.
  unfold save_package_metadata, sidecar_path, dir in *. run.
  rewrite Hi. cbn. rewrite Hv. cbn. rewrite Hsu. cbn. rewrite Hau. cbn.
  rewrite Hli. cbn. rewrite Hhp. cbn. rewrite Hw. by eexists.
Qed.

(** C10. A file without a declared size counts as 0 bytes.
    [get_file_size_mb] gives 0 MB for it.  A selection loop that meets
    it under a name of the format sought returns it, for every
    non-negative cap.  The budget test lets it through exactly when the
    running total is not above the cap already, hence whenever the total
    is within the cap.  And [download_package], when it has selected such
    a file that is not yet stored, with the total within the cap, fetches
    it, stores the bytes received, whatever they are, and returns [True]
    with the running total as it was; no call of [download_package] that
    selects such a file changes the running total. *)
Theorem missing_size_counts_as_zero (f : file_info) :
  size f = None →
  declared_size f = 0 ∧
  get_file_size_mb f = Return (Float.Finite 0 (- 20)) ∧
  (∀ suffix cap name rest,
     0 <= cap → filename f = Some name → Str.endswith name suffix = true →
     find_suitable suffix cap (f :: rest) = Return (Some f)) ∧
  (∀ s, admitted s f ↔
        Float.gt_Z (current_total_size (self s)) (max_total_size_mb (self s)) = false) ∧
  (∀ s, within_budget (self s) → admitted s f) ∧
  (∀ E n d s u name c,
     select_file (max_size_mb (self s)) d = Return (Some f) →
     within_budget (self s) →
     url f = Some u → filename f = Some name →
     files s !! artifact_path (dir s) name = None →
     get_content E (trace s) u = Some c →
     can_write E (Get u :: trace s) (artifact_path (dir s) name) = true →
     can_write E (WriteFile (artifact_path (dir s) name) (Artifact c) :: Get u :: trace s)
       (sidecar_path (dir s) n) = true →
     complete_info d →
     ∃ s1, download_package E n d s = (Return true, s1) ∧
           files s1 !! artifact_path (dir s) name = Some (Artifact c) ∧
           current_total_size (self s1) = current_total_size (self s)) ∧
  (∀ E n d s,
     select_file (max_size_mb (self s)) d = Return (Some f) →
     current_total_size (self (download_package E n d s).2) =
     current_total_size (self s)).
Proof.
  intros Hsize.
  assert (declared_size f = 0) as Hdecl by (unfold declared_size; by rewrite Hsize).
  assert (size_mb f = Float.Finite 0 (- 20)) as Hzero
    by (unfold size_mb; by rewrite Hdecl).
  assert (∀ s, admitted s f ↔
               Float.gt_Z (current_total_size (self s)) (max_total_size_mb (self s)) = false)
    as Hadm by (intros s; unfold admitted; by rewrite Hzero, add_zero_r).
  assert (∀ s, within_budget (self s) → admitted s f) as Hwithin.
  { intros s Hin. apply Hadm. unfold within_budget in Hin.
    destruct (current_total_size (self s)) as [m e| | |]; try done.
    by rewrite gt_Z_finite, Hin. }
  split_and!; [done| |..|done|done| |].
  - unfold get_file_size_mb. by rewrite Hsize.
  - intros suffix cap name rest Hcap Hn Hs. cbn [find_suitable].
    rewrite Hn. cbn. rewrite Hs. unfold get_file_size_mb. rewrite Hsize.
    change (Float.int_div_pow2 (default 0 None) 20)
      with (Return (Float.Finite 0 (- 20))).
    cbn [mbind outcome_bind]. rewrite le_Z_mb.
    by rewrite (proj2 (Z.leb_le _ _)) by (unfold per_file_cap_bytes; lia).
  - intros E n d s u name c Hsel Hin Hu Hn Hnew Hget Hw1 Hw2 Hinfo.
    assert (ready s d f u name) as Hready by (split_and!; auto).
    rewrite (download_package_ready E n d s f u name Hready). run.
    rewrite bool_decide_eq_false_2 by (rewrite Hnew; by intros [? [=]]).
    rewrite Hget. cbn. rewrite Hw1. cbn.
    match goal with |- context [save_package_metadata E n d name ?s0] =>
      destruct (save_package_metadata_complete E n d name s0 Hinfo Hw2) as [m ->] end.
    eexists. split; [done|]. cbn. split.
    + rewrite lookup_insert_ne, lookup_insert_eq; [done|].
      intros Heq. eapply artifact_not_sidecar; [|by symmetry].
      by eapply select_file_suffix.
    + by rewrite Hzero, add_zero_r.
  - intros E n d s Hsel.
    destruct (download_package_consumption E n d s) as [->|(f' & Hsel' & _ & ->)];
      [done|].
    rewrite Hsel in Hsel'. simplify_eq. cbn. by rewrite Hzero, add_zero_r.
Qed.

(** ** What the manifest lists *)

Section Tracked.
Context (E : env) (s0 : state).

Lemma backed_mono new new' n :
  (∀ ev, ev ∈ new → ev ∈ new') → backed E s0 new n → backed E s0 new' n.
Proof.
  intros Hsub (tr & d & f & name & Hd & Hsel & Hn & [Hpre|[c Hc]]);
    exists tr, d, f, name; split_and!; eauto.
Qed.

Lemma origin_mono new new' p :
  (∀ ev, ev ∈ new → ev ∈ new') → origin s0 new p → origin s0 new' p.
Proof. intros Hsub [?|[[c Hc]|?]]; unfold origin; eauto. Qed.

Lemma tracked_start : tracked E s0 [] s0.
Proof.
  split; [done|]. exists []. split_and!; [done|..].
  - intros p rep Hin. by apply elem_of_nil in Hin.
  - intros p Hp. by left.
  - intros n Hn. by apply elem_of_nil in Hn.
Qed.

Lemma tracked_log dl ev s : silent ev → tracked E s0 dl s → tracked E s0 dl (log ev s).
Proof.
  intros Hev (Hcfg & new & Htr & Hrep & Horig & Hdl).
  split; [done|]. exists (ev :: new). cbn. split_and!.
  - by rewrite Htr.
  - intros p rep [<-|Hin]%elem_of_cons; [done|by eapply Hrep].
  - intros p Hp. eapply origin_mono; [|by apply Horig]. set_solver.
  - intros n Hn. eapply backed_mono; [|by apply Hdl]. set_solver.
Qed.

Lemma tracked_consume dl q s : tracked E s0 dl s → tracked E s0 dl (consume q s).
Proof. intros (Hcfg & Hrest). split; [|done]. by rewrite <- Hcfg. Qed.

Lemma tracked_store_artifact dl p c s :
  tracked E s0 dl s → tracked E s0 dl (store p (Artifact c) s).
Proof.
  intros (Hcfg & new & Htr & Hrep & Horig & Hdl).
  split; [done|]. exists (WriteFile p (Artifact c) :: new). cbn. split_and!.
  - by rewrite Htr.
  - intros p' rep [[=]|Hin]%elem_of_cons. by eapply Hrep.
  - intros p' Hp. destruct (decide (p = p')) as [<-|Hne].
    + right; left. exists c. set_solver.
    + rewrite lookup_insert_ne in Hp by done.
      eapply origin_mono; [|by apply Horig]. set_solver.
  - intros n Hn. eapply backed_mono; [|by apply Hdl]. set_solver.
Qed.

Lemma tracked_store_sidecar dl n m s :
  tracked E s0 dl s →
  tracked E s0 dl (store (sidecar_path (dir s) n) (Sidecar m) s).
Proof.
  intros (Hcfg & new & Htr & Hrep & Horig & Hdl).
  assert (dir s = dir s0) as Hdir by (unfold dir, config in *; by simplify_eq).
  split; [done|]. exists (WriteFile (sidecar_path (dir s) n) (Sidecar m) :: new).
  cbn. split_and!.
  - by rewrite Htr.
  - intros p' rep [[=]|Hin]%elem_of_cons. by eapply Hrep.
  - intros p' Hp. destruct (decide (sidecar_path (dir s) n = p')) as [<-|Hne].
    + right; right. exists n. by rewrite Hdir.
    + rewrite lookup_insert_ne in Hp by done.
      eapply origin_mono; [|by apply Horig]. set_solver.
  - intros n' Hn. eapply backed_mono; [|by apply Hdl]. set_solver.
Qed.

Lemma tracked_snoc dl n s :
  tracked E s0 dl s →
  (∀ new, trace s = new ++ trace s0 → backed E s0 new n) →
  tracked E s0 (dl ++ [n]) s.
Proof.
  intros (Hcfg & new & Htr & Hrep & Horig & Hdl) Hn.
  split; [done|]. exists new. split_and!; [done..|].
  intros n' [Hin|Hin]%elem_of_app; [by apply Hdl|].
  apply list_elem_of_singleton in Hin as ->. by apply Hn.
Qed.

(** A successful download adds a backed name. *)
Lemma tracked_download dl n d tr s b s' :
  get_json E tr (json_url n) = Some d →
  download_package E n d s = (Return b, s') →
  tracked E s0 dl s →
  tracked E s0 (if b then dl ++ [n] else dl) s'.
Proof.
  intros Hd Hrun Htracked.
  destruct (download_package_path E n d s) as (b' & s'' & Heq & Hpath).
  rewrite Hrun in Heq. simplify_eq.
  assert (dir s = dir s0 ∧ max_size_mb (self s) = max_size_mb (self s0)) as [Hdir Hmax].
  { destruct Htracked as [Hcfg _]. unfold dir, config in *. by simplify_eq. }
  destruct Hpath as [| | |f u name (Hsel & _ & _ & Hn) Hex| | |
                     |f u name c m (Hsel & _ & _ & Hn) Hnew Hget Hw s1 Hsave];
    try done; try by apply tracked_log.
  - (* the file was there *)
    apply tracked_snoc; [done|]. intros new Htr.
    exists tr, d, f, name. rewrite <- Hmax, <- Hdir. split_and!; [done..|].
    destruct Htracked as (_ & new' & Htr' & _ & Horig & _).
    rewrite Htr' in Htr. apply app_inv_tail in Htr as <-.
    destruct (Horig _ Hex) as [Hpre|[Hwritten|[n' Hside]]]; rewrite <- ?Hdir in *.
    + by left.
    + by right.
    + exfalso. eapply artifact_not_sidecar; [|done].
      by eapply select_file_suffix.
  - by apply tracked_consume, tracked_store_artifact, tracked_log.
  - (* the file was fetched and written *)
    assert (tracked E s0 dl s1) as Hs1
      by (by apply tracked_consume, tracked_store_artifact, tracked_log).
    apply tracked_snoc; [by apply (tracked_store_sidecar dl n m s1)|].
    intros new Htr. exists tr, d, f, name.
    rewrite <- Hmax, <- Hdir. split_and!; [done..|]. right. exists c.
    destruct Htracked as (_ & new' & Htr' & _).
    cbn in Htr. rewrite Htr' in Htr.
    rewrite !app_comm_cons in Htr. apply app_inv_tail in Htr as <-.
    set_solver.
Qed.

Lemma crawl_loop_tracked l dl cnt s :
  tracked E s0 dl s →
  ∃ r s', crawl_loop E l dl cnt s = (Return r, s') ∧ tracked E s0 r.1 s'.
Proof.
  revert dl cnt s. induction l as [|n l IH]; intros dl cnt s Hs; cbn [crawl_loop].
  - by eexists _, _.
  - unfold mbind, M_bind, get_self, pure, lift, emit.
    destruct (max_packages (self s) <=? cnt); [by eexists _, _|].
    destruct (get_package_info_cases E n s) as [[_ ->]|(d & Hd & ->)].
    { by apply IH, tracked_log. }
    destruct (is_updated_returns E d) as [b ->]. cbn.
    destruct b; cbn; [|by apply IH, tracked_log].
    destruct (download_package_path E n d (log (Get (json_url n)) s))
      as (ok & s' & Hrun & _).
    rewrite Hrun.
    pose proof (tracked_download dl n d _ _ ok s' Hd Hrun
                  (tracked_log dl (Get (json_url n)) s I Hs)) as Hs'.
    destruct ok; by apply IH, tracked_log.
Qed.
End Tracked.

Lemma get_recent_packages_from_rss_returns E s :
  ∃ l s', get_recent_packages_from_rss E s = (Return l, s').
Proof.
  unfold get_recent_packages_from_rss, mbind, M_bind.
  destruct (try_feeds_returns E rss_urls [] s) as (r & s' & -> & _).
  destruct r; by eexists _, _.
Qed.

(** C8 (amended). Every name that [crawl_and_download] returns or writes
    to its report has a descriptor served by the index whose selected
    file is in the store under its key: either artifact bytes were
    written under that key during the session, or the key was in the
    store when the session began (then [download_package] reports
    success without writing). *)
Theorem manifest_entries_are_stored (E : env) (pl : option (list string)) (s : state) :
  ∃ new, trace (crawl_and_download E pl s).2 = new ++ trace s ∧
    ∀ l, ((crawl_and_download E pl s).1 = Return (Some l) ∨
          ∃ p rep, WriteFile p (ReportJson rep) ∈ new ∧ rp_packages rep = l) →
    ∀ n, n ∈ l → backed E s new n.
Proof.
  unfold crawl_and_download, mbind, M_bind.
  assert (∃ l0 sa,
            match pl with
            | Some l => pure l
            | None => get_recent_packages_from_rss E
            end s = (Return l0, sa) ∧ tracked E s [] sa) as (l0 & sa & -> & Hsa).
  { destruct pl as [l|].
    - exists l, s. split; [done|apply tracked_start].
    - destruct (get_recent_packages_from_rss_returns E s) as (l & s' & Hrun).
      exists l, s'. split; [done|].
      pose proof (keeps_get_recent_packages_from_rss (tracked E s [])
                    (tracked_log E s []) E s (tracked_start E s)) as Hkeep.
      by rewrite Hrun in Hkeep. }
  destruct l0 as [|n0 l0].
  { destruct Hsa as (_ & new & Htr & Hrep & _). exists new. split; [done|].
    intros l [[=]|(p & rep & Hin & _)]. by destruct (Hrep p rep). }
  destruct (crawl_loop_tracked E s (n0 :: l0) [] 0 sa Hsa) as (r & sl & -> & Hsl).
  destruct Hsl as (_ & new & Htr & Hrep & _ & Hdl).
  unfold create_summary_report, git_commit_and_push, mbind, M_bind, clock,
    get_self, write_file, emit, pure. cbn [self store trace].
  set (rep := {| rp_download_time := now E (trace sl);
                 total_packages_downloaded := length r.1;
                 total_size_mb := round2_float (current_total_size (self sl));
                 rp_packages := r.1 |}).
  set (p1 := Str.path_join (download_dir (self sl)) "download_report.json").
  set (p2 := Str.path_join (download_dir (self sl)) "README.md").
  assert (∀ extra l,
            (∀ p rep', WriteFile p (ReportJson rep') ∈ extra ++ new →
                       rp_packages rep' = r.1) →
            (∃ p rep', WriteFile p (ReportJson rep') ∈ extra ++ new ∧
                       rp_packages rep' = l) →
            ∀ n, n ∈ l → backed E s (extra ++ new) n) as Hreport.
  { intros extra l Hall (p & rep' & Hin & <-) n Hn.
    rewrite (Hall p rep' Hin) in Hn.
    eapply backed_mono; [|by apply Hdl].
    intros ev Hev. apply elem_of_app. by right. }
  destruct (can_write E (trace sl) p1).
  2: { exists new. split; [done|].
       intros l [[=]|(p & rep' & Hin & _)]. by destruct (Hrep p rep'). }
  destruct (can_write E (trace (store p1 (ReportJson rep) sl)) p2).
  - exists ([GitPublish (download_dir (self sl)); WriteFile p2 (Readme rep);
             WriteFile p1 (ReportJson rep)] ++ new).
    split; [cbn; by rewrite Htr|].
    assert (∀ p rep', WriteFile p (ReportJson rep') ∈
                ([GitPublish (download_dir (self sl)); WriteFile p2 (Readme rep);
                  WriteFile p1 (ReportJson rep)] ++ new) →
              rp_packages rep' = r.1) as Hall.
    { intros p rep' Hin. cbn in Hin.
      repeat (apply elem_of_cons in Hin as [Heq|Hin]; [by simplify_eq|]).
      by destruct (Hrep p rep'). }
    intros l [[= <-]|Hrep']; [|by apply Hreport].
    intros n Hn. eapply backed_mono; [|by apply Hdl]. set_solver.
  - exists ([WriteFile p1 (ReportJson rep)] ++ new).
    split; [cbn; by rewrite Htr|].
    intros l [[=]|Hrep']. apply Hreport; [|done].
    intros p rep' Hin. cbn in Hin.
    apply elem_of_cons in Hin as [Heq|Hin]; [by simplify_eq|].
    by destruct (Hrep p rep').
Qed.

(** ** The pause between candidates *)

(** C9. In the loop of [crawl_and_download], a candidate whose
    descriptor cannot be fetched, or whose latest release is too old, is
    left by [continue]: the next candidate is taken up in the state right
    after the request for the descriptor, with no pause recorded, although
    the pause is there to keep requests apart. *)
Theorem skipped_candidate_is_not_followed_by_delay (E : env) (n : string)
    (rest dl : list string) (cnt : Z) (s : state) :
  cnt < max_packages (self s) →
  get_json E (trace s) (json_url n) = None ∨
  (∃ d, get_json E (trace s) (json_url n) = Some d ∧
        is_updated_since_july_2025 E d = Return false) →
  crawl_loop E (n :: rest) dl cnt s =
  crawl_loop E rest dl cnt (log (Get (json_url n)) s).
Proof.
  intros Hcnt Hskip. cbn [crawl_loop].
  unfold mbind, M_bind, get_self, pure, lift.
  replace (max_packages (self s) <=? cnt) with false by lia.
  destruct (get_package_info_cases E n s) as [[Hnone ->]|(d & Hd & ->)]; [done|].
  destruct Hskip as [Hnone|(d' & Hd' & Hold)]; [congruence|].
  rewrite Hd in Hd'. injection Hd' as <-. by rewrite Hold.
Qed.

Lemma skipped_candidate_is_not_followed_by_delay_witness :
  crawl_loop Scenario.online ["ghost"; "alpha"] [] 0 Scenario.fresh =
  crawl_loop Scenario.online ["alpha"] [] 0
    (log (Get "https://pypi.org/pypi/ghost/json") Scenario.fresh).
Proof.
  apply (skipped_candidate_is_not_followed_by_delay
           Scenario.online "ghost" ["alpha"] [] 0 Scenario.fresh).
  - vm_compute. reflexivity.
  - left. vm_compute. reflexivity.
Defined.

(** Against C2 as stated: the fetch of an admitted file fails, and the
    running total afterwards does not include the size of the file. *)
Lemma failed_fetch_reserves_nothing :
  let r := download_package Scenario.offline "alpha" Scenario.alpha Scenario.fresh in
  select_file 1 Scenario.alpha = Return (Some Scenario.alpha_file) ∧
  admitted Scenario.fresh Scenario.alpha_file ∧
  get_content Scenario.offline [] "https://files.example/alpha-2.0.tar.gz" = None ∧
  r.1 = Return false ∧
  get_file_size_mb Scenario.alpha_file = Return (Float.Finite 500000 (- 20)) ∧
  Float.add (current_total_size (self Scenario.fresh)) (Float.Finite 500000 (- 20)) =
    Float.Finite 500000 (- 20) ∧
  current_total_size (self r.2) = Float.Finite 0 0 ∧
  current_total_size (self r.2) ≠
    Float.add (current_total_size (self Scenario.fresh)) (size_mb Scenario.alpha_file).
Proof. split_and!; [vm_compute; reflexivity..|]. vm_compute. discriminate. Qed.

Lemma failed_fetch_consumes_nothing_witness :
  download_package Scenario.offline "alpha" Scenario.alpha Scenario.fresh =
  (Return false, log (Get "https://files.example/alpha-2.0.tar.gz") Scenario.fresh).
Proof.
  refine (proj1 (failed_fetch_consumes_nothing Scenario.offline "alpha" Scenario.alpha
                   Scenario.fresh Scenario.alpha_file
                   "https://files.example/alpha-2.0.tar.gz" "alpha-2.0.tar.gz" _ _ _)).
  - split_and!; [vm_compute; reflexivity..|reflexivity|reflexivity].
  - vm_compute. reflexivity.
  - reflexivity.
Defined.



(** ** Concrete runs *)

Lemma consumed_within_aggregate_cap_witness :
  let s := session Scenario.online [CrawlAndDownload (Some ["alpha"])]
             {| self := init "packages" 100 1; files := ∅; trace := [] |} in
  Float.le_Z (current_total_size (self s)) (max_total_size_mb (self s)) = true ∧
  decimal_le (round2_float (Float.Finite 500000 (- 20))) (max_total_size_mb (self s)).
Proof.
  intros s.
  destruct (consumed_within_aggregate_cap Scenario.online "packages" 100 1 ∅
              [CrawlAndDownload (Some ["alpha"])]) as (Htotal & Hreport & _).
  split; [exact Htotal|].
  apply (Hreport (WriteFile "packages/download_report.json"
                    (ReportJson {| rp_download_time := "2025-08-01T12:00:00";
                                   total_packages_downloaded := 1;
                                   total_size_mb :=
                                     round2_float (Float.Finite 500000 (- 20));
                                   rp_packages := ["alpha"] |}))).
  - apply list_elem_of_In. vm_compute. tauto.
  - reflexivity.
Defined.



(** Against C5 as stated: of two upload times, the earlier instant is
    accepted and the later one refused, so no instant is a cutoff for
    both; the accepted one lies before 2025-07-01T00:00:00Z and the
    refused one after it. *)
Lemma offset_moves_the_cutoff :
  fromisoformat Scenario.online "2025-07-01T00:00:00+05:00" = Some Scenario.east_time ∧
  fromisoformat Scenario.online "2025-06-30T23:59:59-05:00" = Some Scenario.west_time ∧
  is_updated_since_july_2025 Scenario.online Scenario.east = Return true ∧
  is_updated_since_july_2025 Scenario.online Scenario.west = Return false ∧
  Date.utc_micros Scenario.east_time < Date.utc_micros (cutoff_date (Some 0)) ∧
  Date.utc_micros (cutoff_date (Some 0)) < Date.utc_micros Scenario.west_time.
Proof. split_and!; vm_compute; reflexivity. Qed.

Lemma eligible_from_cutoff_at_own_offset_witness :
  is_updated_since_july_2025 Scenario.online Scenario.alpha = Return true.
Proof.
  destruct (eligible_from_cutoff_at_own_offset Scenario.online Scenario.alpha)
    as (b & -> & Hb).
  - intros i v all first rest ts t [= <-] [= <-] [= <-] Hl.
    vm_compute in Hl. injection Hl as <- <-.
    intros [= <-] Ht. vm_compute in Ht. injection Ht as <-.
    unfold Date.valid. vm_compute. intuition discriminate.
  - f_equal. apply Hb.
    eexists _, "2.0", _, Scenario.alpha_file, [], "2025-07-02T00:00:00Z",
      {| year := 2025; month := 7; day := 2; hour := 0; minute := 0; second := 0;
         microsecond := 0; tzinfo := Some 0 |}.
    split_and!; try reflexivity.
    + vm_compute. discriminate.
    + intros _. vm_compute. discriminate.
Defined.

Lemma crawl_stops_at_max_packages_witness :
  crawl_loop Scenario.online ["alpha"; "beta"; "gamma"] [] 0 Scenario.fresh2 =
  (Return (["alpha"; "beta"], 2), Scenario.after_beta) ∧
  artifact_writes (trace Scenario.after_beta) =
  ["packages/beta-2.0.tar.gz"; "packages/alpha-2.0.tar.gz"].
Proof.
  split; [|vm_compute; reflexivity].
  apply (proj2 (crawl_stops_at_max_packages Scenario.online Scenario.fresh2)
           "alpha" "beta" "gamma" Scenario.after_alpha Scenario.after_beta).
  - reflexivity.
  - vm_compute. reflexivity.
  - vm_compute. reflexivity.
Defined.

(** Against C7 as stated: the first feed fails after one name was
    extracted and the second feed is empty, yet that name is returned
    and not the hardcoded list; and with a maximum of -1 the cut list
    is longer than the maximum. *)
Lemma partial_feed_or_negative_maximum :
  feed_fails Scenario.broken_feeds [] updates_url ∧
  feed_names Scenario.broken_feeds [Get updates_url] packages_url = [] ∧
  (get_recent_packages_from_rss Scenario.broken_feeds Scenario.fresh).1 = Return ["foo"] ∧
  slice_to 100 get_popular_packages_fallback ≠ ["foo"] ∧
  (get_recent_packages_from_rss Scenario.online Scenario.negative).1 =
    Return (slice_to (-1) get_popular_packages_fallback) ∧
  max_packages (self Scenario.negative) <
    Z.of_nat (length (slice_to (-1) get_popular_packages_fallback)).
Proof.
  split_and!; try (vm_compute; reflexivity).
  - right. eexists _, IndexError. split; [reflexivity|]. vm_compute. reflexivity.
  - vm_compute. discriminate.
Qed.

Lemma resolver_falls_back_witness :
  get_recent_packages_from_rss Scenario.online Scenario.fresh =
  (Return (slice_to 100 get_popular_packages_fallback),
   log (Get packages_url) (log (Get updates_url) Scenario.fresh)).
Proof.
  apply (proj1 (resolver_falls_back Scenario.online Scenario.fresh)).
  left. split; by left.
Defined.

(** Against C8 as stated: the artifact is in the store before the
    session; the session lists the candidate and writes no artifact. *)
Lemma listed_without_write :
  let r := crawl_and_download Scenario.online (Some ["alpha"]) Scenario.stocked in
  r.1 = Return (Some ["alpha"]) ∧
  artifact_writes (trace r.2) = [] ∧
  files r.2 !! "packages/alpha-2.0.tar.gz" = Some (Artifact "old bytes").
Proof. split_and!; vm_compute; reflexivity. Qed.

Lemma manifest_entries_are_stored_witness :
  ∃ new,
    trace (crawl_and_download Scenario.online (Some ["alpha"]) Scenario.fresh).2 =
      new ++ trace Scenario.fresh ∧
    backed Scenario.online Scenario.fresh new "alpha".
Proof.
  destruct (manifest_entries_are_stored Scenario.online (Some ["alpha"]) Scenario.fresh)
    as (new & Htr & Hbacked).
  exists new. split; [exact Htr|].
  apply (Hbacked ["alpha"]).
  - left. vm_compute. reflexivity.
  - apply list_elem_of_In. vm_compute. tauto.
Defined.

Lemma missing_size_counts_as_zero_witness :
  declared_size Scenario.unsized_file = 0 ∧
  ∃ s1,
    download_package Scenario.online "unsized" Scenario.unsized Scenario.fresh =
      (Return true, s1) ∧
    files s1 !! "packages/unsized-2.0.tar.gz" =
      Some (Artifact "bytes of https://files.example/unsized-2.0.tar.gz") ∧
    current_total_size (self s1) = current_total_size (self Scenario.fresh).
Proof.
  destruct (missing_size_counts_as_zero Scenario.unsized_file eq_refl)
    as (Hzero & _ & _ & _ & _ & Hrun & _).
  split; [exact Hzero|].
  apply (Hrun Scenario.online "unsized" Scenario.unsized Scenario.fresh
           "https://files.example/unsized-2.0.tar.gz" "unsized-2.0.tar.gz"
           "bytes of https://files.example/unsized-2.0.tar.gz").
  - vm_compute. reflexivity.
  - vm_compute. reflexivity.
  - reflexivity.
  - reflexivity.
  - vm_compute. reflexivity.
  - reflexivity.
  - reflexivity.
  - reflexivity.
  - eexists. split; [reflexivity|]. split_and!; by eexists.
Defined.

(** * Further properties *)

(** ** Selection *)

(** What a selection that yields a file went through. *)
Lemma select_file_inv cap d f :
  select_file cap d = Return (Some f) →
  ∃ i v all l, info d = Some i ∧ version i = Some v ∧ releases d = Some all ∧
               all !! v = Some l ∧
               (find_suitable ".tar.gz" cap l = Return (Some f) ∨
                find_suitable ".tar.gz" cap l = Return None ∧
                find_suitable ".whl" cap l = Return (Some f)).
Proof.
  unfold select_file.
  destruct (info d) as [i|] eqn:Hi; cbn; [|done].
  destruct (version i) as [v|] eqn:Hv; cbn; [|done].
  destruct (releases d) as [all|] eqn:Hr; cbn; [|done].
  destruct (all !! v) as [l|] eqn:Hl; cbn; [|done].
  destruct (find_suitable ".tar.gz" cap l) as [[g|]|] eqn:Ht; cbn; [| |done].
  - intros [= <-]. exists i, v, all, l. split_and!; auto.
  - intros Hw. exists i, v, all, l. split_and!; auto.
Qed.

(** X1. Whatever the descriptor, a file that the selection of
    [download_package] yields belongs to the release list of the latest
    version, has a name ending in [.tar.gz] or [.whl], and has a size in
    megabytes, as [get_file_size_mb] computes it, that is at most
    [max_size_mb]; when the declared size is below [2^53] bytes, it is at
    most [max_size_mb * 1048576] bytes. *)
Theorem selected_file_format_and_size (max_size_mb : Z) (d : package_info)
    (f : file_info) :
  select_file max_size_mb d = Return (Some f) →
  (∃ name, filename f = Some name ∧
           (Str.endswith name ".tar.gz" = true ∨ Str.endswith name ".whl" = true)) ∧
  (∃ x, get_file_size_mb f = Return x ∧ Float.le_Z x max_size_mb = true) ∧
  (exact_size f → declared_size f <= max_size_mb * 1048576) ∧
  ∃ i v all l, info d = Some i ∧ version i = Some v ∧ releases d = Some all ∧
               all !! v = Some l ∧ f ∈ l.
Proof.
  intros (i & v & all & l & Hi & Hv & Hr & Hl & Hfound)%select_file_inv.
  assert (∃ suffix, (suffix = ".tar.gz" ∨ suffix = ".whl") ∧
                    find_suitable suffix max_size_mb l = Return (Some f))
    as (suffix & Hsuffix & Hfind) by (destruct Hfound as [?|[_ ?]]; eauto).
  destruct (find_suitable_suffix _ _ _ _ Hfind) as (name & Hname & Hend).
  destruct (find_suitable_passed _ _ _ _ Hfind) as (Hin & Hsize & Hle).
  split_and!.
  - exists name. split; [done|]. destruct Hsuffix as [-> | ->]; auto.
  - by exists (size_mb f).
  - intros Hexact. rewrite (get_file_size_mb_exact f Hexact) in Hsize.
    injection Hsize as Hsize. rewrite <- Hsize, le_Z_mb in Hle.
    by apply Z.leb_le in Hle.
  - by exists i, v, all, l.
Qed.

Lemma selected_file_format_and_size_witness :
  declared_size Scenario.sdist <= 1 * 1048576.
Proof.
  destruct (selected_file_format_and_size 1 Scenario.mixed Scenario.sdist)
    as (_ & _ & Hbytes & _).
  - vm_compute. reflexivity.
  - apply Hbytes. vm_compute. reflexivity.
Defined.

(** ** Effects of [download_package] *)

(** X2. [download_package] never raises: every failure inside it
    comes back as [False].  It makes at most one request, to the address
    of the selected file, and leaves the configuration of the crawler as
    it was. *)
Theorem download_package_never_raises (E : env) (n : string) (d : package_info)
    (s : state) :
  ∃ b new,
    (download_package E n d s).1 = Return b ∧
    trace (download_package E n d s).2 = new ++ trace s ∧
    (requests new = [] ∨
     ∃ f u, select_file (max_size_mb (self s)) d = Return (Some f) ∧
            url f = Some u ∧ requests new = [u]) ∧
    config (self (download_package E n d s).2) = config (self s).
Proof.
  destruct (download_package_path E n d s) as (b & s' & -> & Hpath).
  exists b. cbn.
  destruct Hpath as [| | | |f u name (Hsel & _ & Hu & _)
                     |f u name c (Hsel & _ & Hu & _)
                     |f u name c e (Hsel & _ & Hu & _)
                     |f u name c m (Hsel & _ & Hu & _)].
  1-4: exists []; split_and!; auto.
  1-2: exists [Get u]; split_and!; [done..| |done]; right; by exists f, u.
  - exists [WriteFile (artifact_path (dir s) name) (Artifact c); Get u].
    split_and!; [done..| |done]. right. by exists f, u.
  - exists [WriteFile (sidecar_path (dir s) n) (Sidecar m);
            WriteFile (artifact_path (dir s) name) (Artifact c); Get u].
    split_and!; [done..| |done]. right. by exists f, u.
Qed.

(** X3. When nothing is selected (no latest version, no fitting file,
    a release file without a name) or the selected file would exceed
    the aggregate cap, [download_package] returns [False] and has no
    effect: no request, no write, no consumption. *)
Theorem refused_download_has_no_effect (E : env) (n : string) (d : package_info)
    (s : state) :
  (∀ f, select_file (max_size_mb (self s)) d ≠ Return (Some f)) ∨
  (∃ f, select_file (max_size_mb (self s)) d = Return (Some f) ∧ ¬ admitted s f) →
  download_package E n d s = (Return false, s).
Proof.
  intros Hrefused.
  destruct (download_package_path E n d s) as (b & s' & -> & Hpath).
  assert (∀ f u name, ready s d f u name → False) as Hnot.
  { intros f u name (Hsel & Hadm & _).
    destruct Hrefused as [Hnone|(f' & Hsel' & Hover)]; [by destruct (Hnone f Hsel)|].
    rewrite Hsel in Hsel'. by simplify_eq. }
  destruct Hpath as [| | |f u name Hr|f u name Hr|f u name c Hr
                     |f u name c e Hr|f u name c m Hr];
    try done; by destruct (Hnot f u name).
Qed.

Lemma refused_download_has_no_effect_witness :
  download_package Scenario.online "large" Scenario.large Scenario.fresh =
  (Return false, Scenario.fresh).
Proof.
  apply refused_download_has_no_effect. left. intros f Hf.
  vm_compute in Hf. discriminate.
Defined.

(** X4. When the artifact was fetched and written but [info] lacks one
    of the keys copied into the sidecar, [download_package] returns
    [False] although the artifact is in the store and its size has been
    added to the running total; no sidecar is written. *)
Theorem sidecar_failure_after_download (E : env) (n : string) (d : package_info)
    (s : state) (f : file_info) (u name c : string) :
  ready s d f u name →
  files s !! artifact_path (dir s) name = None →
  get_content E (trace s) u = Some c →
  can_write E (Get u :: trace s) (artifact_path (dir s) name) = true →
  ¬ complete_info d →
  let s' := (download_package E n d s).2 in
  (download_package E n d s).1 = Return false ∧
  files s' !! artifact_path (dir s) name = Some (Artifact c) ∧
  current_total_size (self s') =
    Float.add (current_total_size (self s)) (size_mb f) ∧
  trace s' = [WriteFile (artifact_path (dir s) name) (Artifact c); Get u] ++ trace s.
Proof.
  intros Hready Hnew Hget Hw Hbare.
  destruct (download_package_path E n d s) as (b & s' & -> & Hpath). cbn.
  destruct Hready as (Hsel & Hadm & Hu & Hn).
  destruct Hpath as [Hnone|f' Hsel' Hover|f' Hsel' _ Hmiss|f' u' name' (Hsel' & _ & Hu' & Hn') Hex
                      |f' u' name' (Hsel' & _ & Hu' & Hn') _ Hget'
                      |f' u' name' c' (Hsel' & _ & Hu' & Hn') _ Hget' Hw'
                      |f' u' name' c' e (Hsel' & _ & Hu' & Hn') _ Hget' Hw'
                      |f' u' name' c' m (Hsel' & _ & Hu' & Hn') _ Hget' Hw'];
    try (by destruct (Hnone f Hsel)); rewrite Hsel in Hsel'; simplify_eq.
  all: try (by destruct Hover).
  all: try (destruct Hmiss; congruence).
  all: try (rewrite Hnew in Hex; by destruct Hex).
  all: try congruence.
  - subst s'. split_and!; [done| |done..]. cbn. by rewrite lookup_insert_eq.
  - exfalso. apply Hbare. rename H into Hsave. revert Hsave.
    unfold save_package_metadata, mbind, M_bind, lift, clock, get_self, write_file.
    destruct (info d) as [i|] eqn:Hi; cbn; [|done].
    destruct (version i) as [v|] eqn:Hv; cbn; [|done].
    destruct (summary i) as [su|] eqn:Hsu; cbn; [|done].
    destruct (author i) as [au|] eqn:Hau; cbn; [|done].
    destruct (license i) as [li|] eqn:Hli; cbn; [|done].
    destruct (home_page i) as [hp|] eqn:Hhp; cbn; [|done].
    intros _. exists i. rewrite Hv, Hsu, Hau, Hli, Hhp. split_and!; eauto.
Qed.

Lemma sidecar_failure_after_download_witness :
  (download_package Scenario.online "bare" Scenario.bare Scenario.fresh).1 = Return false ∧
  files (download_package Scenario.online "bare" Scenario.bare Scenario.fresh).2
    !! "packages/bare-2.0.tar.gz" =
    Some (Artifact "bytes of https://files.example/bare-2.0.tar.gz").
Proof.
  destruct (sidecar_failure_after_download Scenario.online "bare" Scenario.bare
              Scenario.fresh
              (Fixture.file "bare-2.0.tar.gz" 1000 "2025-07-02T00:00:00Z")
              "https://files.example/bare-2.0.tar.gz" "bare-2.0.tar.gz"
              "bytes of https://files.example/bare-2.0.tar.gz")
    as (Hfalse & Hfile & _).
  - split_and!; [vm_compute; reflexivity..|reflexivity|reflexivity].
  - vm_compute. reflexivity.
  - reflexivity.
  - reflexivity.
  - intros (i & [= <-] & _ & [su Hsu] & _). discriminate.
  - split; [exact Hfalse|exact Hfile].
Defined.

(** X5. [download_package] never removes a file, and it changes no
    file that was in the store before the call, except possibly the
    sidecar of the package: an artifact that exists is never
    overwritten. *)
Theorem download_package_keeps_files (E : env) (n : string) (d : package_info)
    (s : state) (p : string) :
  is_Some (files s !! p) →
  is_Some (files (download_package E n d s).2 !! p) ∧
  (p ≠ sidecar_path (dir s) n →
   files (download_package E n d s).2 !! p = files s !! p).
Proof.
  intros Hp.
  destruct (download_package_path E n d s) as (b & s' & -> & Hpath). cbn.
  destruct Hpath as [| | | | | |f u name c e _ Hnew|f u name c m _ Hnew]; try done.
  - assert (p ≠ artifact_path (dir s) name) as Hne.
    { intros ->. rewrite Hnew in Hp. by destruct Hp. }
    subst s'. cbn. by rewrite lookup_insert_ne.
  - assert (p ≠ artifact_path (dir s) name) as Hne.
    { intros ->. rewrite Hnew in Hp. by destruct Hp. }
    subst s'. cbn. split.
    + destruct (decide (sidecar_path (dir s) n = p)) as [->|Hside].
      * by rewrite lookup_insert_eq.
      * by rewrite !lookup_insert_ne.
    + intros Hside. by rewrite !lookup_insert_ne.
Qed.

Lemma download_package_keeps_files_witness :
  files (download_package Scenario.online "beta" Scenario.beta Scenario.stocked).2
    !! "packages/alpha-2.0.tar.gz" = Some (Artifact "old bytes").
Proof.
  refine (eq_trans
            (proj2 (download_package_keeps_files Scenario.online "beta" Scenario.beta
                      Scenario.stocked "packages/alpha-2.0.tar.gz" _) _) _).
  - vm_compute. by eexists.
  - vm_compute. discriminate.
  - vm_compute. reflexivity.
Defined.

(** X6. For a declared size below [2^53] bytes, [get_file_size_mb]
    returns the quotient of the size by [2^20] exactly, and the per-file
    test on it is the comparison of the size with [max_size_mb * 1048576]
    bytes. *)
Theorem size_in_megabytes_is_exact (f : file_info) :
  exact_size f →
  get_file_size_mb f = Return (Float.Finite (declared_size f) (- 20)) ∧
  (Float.value (declared_size f) (- 20) == inject_Z (declared_size f) / 1048576)%Q ∧
  ∀ cap, Float.le_Z (Float.Finite (declared_size f) (- 20)) cap = true ↔
         declared_size f <= cap * 1048576.
Proof.
  intros Hf. split_and!.
  - by apply get_file_size_mb_exact.
  - unfold Float.value. cbn. unfold Qeq, Qdiv, Qmult, Qinv, inject_Z. cbn. lia.
  - intros cap. rewrite le_Z_mb. apply Z.leb_le.
Qed.

Lemma size_in_megabytes_is_exact_witness :
  get_file_size_mb Scenario.alpha_file = Return (Float.Finite 500000 (- 20)).
Proof.
  refine (proj1 (size_in_megabytes_is_exact Scenario.alpha_file _)).
  vm_compute. reflexivity.
Defined.

Local Ltac incomplete :=
  intros [(? & ? & [? ?] & [? ?] & [? ?] & [? ?] & [? ?]) _]; congruence.

(** X7. [save_package_metadata]: when [info] has the five keys and the
    write is possible, exactly the sidecar is written, under
    [<download_dir>/<package_name>_metadata.json], carrying the package
    name, the version, the given file name and the time of the clock;
    when a key is missing it raises [KeyError], when the write is
    refused [OSError], and in both cases nothing is changed. *)
Theorem save_package_metadata_writes_or_raises (E : env) (n : string)
    (d : package_info) (name : string) (s : state) :
  let p := Str.path_join (download_dir (self s)) (n +:+ "_metadata.json") in
  (complete_info d ∧ can_write E (trace s) p = true →
   ∃ m, save_package_metadata E n d name s = (Return tt, store p (Sidecar m) s) ∧
        md_name m = n ∧ md_download_filename m = name ∧
        Some (md_version m) = info d ≫= version ∧
        md_download_time m = now E (trace s)) ∧
  (¬ complete_info d → save_package_metadata E n d name s = (Raise KeyError, s)) ∧
  (complete_info d ∧ can_write E (trace s) p = false →
   save_package_metadata E n d name s = (Raise OSError, s)).
Proof.
  intros p. subst p.
  unfold save_package_metadata, complete_info, mbind, M_bind, lift, clock,
    get_self, write_file.
  destruct (info d) as [i|] eqn:Hi; cbn; [|split_and!; [incomplete|done|incomplete]].
  destruct (version i) as [v|] eqn:Hv; cbn; [|split_and!; [incomplete|done|incomplete]].
  destruct (summary i) as [su|] eqn:Hsu; cbn; [|split_and!; [incomplete|done|incomplete]].
  destruct (author i) as [au|] eqn:Hau; cbn; [|split_and!; [incomplete|done|incomplete]].
  destruct (license i) as [li|] eqn:Hli; cbn; [|split_and!; [incomplete|done|incomplete]].
  destruct (home_page i) as [hp|] eqn:Hhp; cbn; [|split_and!; [incomplete|done|incomplete]].
  split_and!.
  - intros [_ ->]. by eexists.
  - intros Hnot. destruct Hnot. exists i. rewrite Hv, Hsu, Hau, Hli, Hhp.
    split_and!; eauto.
  - by intros [_ ->].
Qed.

Lemma save_package_metadata_writes_or_raises_witness :
  save_package_metadata Scenario.online "bare" Scenario.bare "bare-2.0.tar.gz"
    Scenario.fresh = (Raise KeyError, Scenario.fresh).
Proof.
  apply (proj1 (proj2 (save_package_metadata_writes_or_raises Scenario.online "bare"
                         Scenario.bare "bare-2.0.tar.gz" Scenario.fresh))).
  intros (i & [= <-] & _ & [su Hsu] & _). discriminate.
Defined.

(** X8. [get_package_info] never raises: it records one request to
    [https://pypi.org/pypi/<name>/json] and returns the descriptor, or
    [None] when the request fails; the store and the crawler are
    untouched. *)
Theorem get_package_info_isolates_failures (E : env) (n : string) (s : state) :
  get_package_info E n s =
  (Return (get_json E (trace s) ("https://pypi.org/pypi/" +:+ n +:+ "/json")),
   log (Get ("https://pypi.org/pypi/" +:+ n +:+ "/json")) s).
Proof.
  unfold get_package_info, try_except, http_get, mbind, M_bind, pure, json_url.
  by destruct (get_json E (trace s) _).
Qed.

(** ** Names taken from a feed *)

Lemma take_word_shape s :
  Forall (λ c, Str.isspace c = false) (String.list_ascii_of_string (Str.take_word s)) ∧
  ∃ post, s = Str.take_word s +:+ post ∧
          (post = "" ∨ ∃ c rest, post = String c rest ∧ Str.isspace c = true).
Proof.
  induction s as [|c s [IHw (post & IHs & IHp)]]; cbn [Str.take_word].
  - split; [constructor|]. exists "". auto.
  - destruct (Str.isspace c) eqn:Hc.
    + split; [constructor|]. exists (String c s). split; [done|]. right. eauto.
    + split; [by constructor|]. exists post. split; [|done].
      change (String c s = String c (Str.take_word s +:+ post)). by f_equal.
Qed.

Lemma lstrip_shape s :
  ∃ pre, s = pre +:+ Str.lstrip s ∧
         Forall (λ c, Str.isspace c = true) (String.list_ascii_of_string pre) ∧
         match Str.lstrip s with
         | EmptyString => True
         | String c _ => Str.isspace c = false
         end.
Proof.
  induction s as [|c s (pre & IHs & IHp & IHh)]; cbn [Str.lstrip].
  - exists "". split_and!; [done|constructor|done].
  - destruct (Str.isspace c) eqn:Hc.
    + exists (String c pre). split_and!; [|by constructor|done].
      change (String c s = String c (pre +:+ Str.lstrip s)). by f_equal.
    + exists "". split_and!; [done|constructor|done].
Qed.

(** X9. [title.text.split()[0]], the candidate taken from a title: it
    is not empty, contains no whitespace, is preceded in the title by
    whitespace only and followed by whitespace or the end; there is none
    (an [IndexError]) exactly when the title is all whitespace. *)
Theorem split_first_is_first_token (s : string) :
  match Str.split_first s with
  | Some w =>
      w ≠ "" ∧
      Forall (λ c, Str.isspace c = false) (String.list_ascii_of_string w) ∧
      ∃ pre post,
        s = pre +:+ w +:+ post ∧
        Forall (λ c, Str.isspace c = true) (String.list_ascii_of_string pre) ∧
        (post = "" ∨ ∃ c rest, post = String c rest ∧ Str.isspace c = true)
  | None => Forall (λ c, Str.isspace c = true) (String.list_ascii_of_string s)
  end.
Proof.
  unfold Str.split_first.
  destruct (lstrip_shape s) as (pre & Hs & Hpre & Hhead).
  destruct (Str.lstrip s) as [|c r] eqn:Hstrip.
  - rewrite Hs. clear Hs. induction pre as [|c pre IH]; [constructor|].
    cbn. apply Forall_cons in Hpre as [Hc Hpre]. constructor; [done|by apply IH].
  - destruct (take_word_shape (String c r)) as (Hword & post & Hr & Hpost).
    split_and!.
    + cbn [Str.take_word]. by rewrite Hhead.
    + done.
    + exists pre, post. split_and!; [|done..]. by rewrite <- Hr.
Qed.

Lemma split_first_nonempty s w : Str.split_first s = Some w → w ≠ "".
Proof.
  intros Hw. unfold Str.split_first in Hw.
  destruct (lstrip_shape s) as (pre & _ & _ & Hhead).
  destruct (Str.lstrip s) as [|c r]; [done|]. injection Hw as <-.
  cbn [Str.take_word]. by rewrite Hhead.
Qed.

(** What the loop over the items of a feed keeps: no duplicates, the
    names it found, in order, after those it started with. *)
Lemma scan_items_keeps items acc :
  NoDup acc →
  NoDup (scan_items items acc).2 ∧
  acc `prefix_of` (scan_items items acc).2 ∧
  ∀ x, x ∈ (scan_items items acc).2 →
       x ∈ acc ∨ ∃ text, Some text ∈ items ∧ Str.split_first text = Some x.
Proof.
  revert acc. induction items as [|[text|] items IH]; intros acc Hacc;
    cbn [scan_items].
  - split_and!; [done|done|auto].
  - assert (∀ acc', NoDup acc' → acc `prefix_of` acc' →
              (∀ x, x ∈ acc' → x ∈ acc ∨ Str.split_first text = Some x) →
              NoDup (scan_items items acc').2 ∧
              acc `prefix_of` (scan_items items acc').2 ∧
              ∀ x, x ∈ (scan_items items acc').2 →
                   x ∈ acc ∨ ∃ text', Some text' ∈ Some text :: items ∧
                                      Str.split_first text' = Some x) as Hstep.
    { intros acc' Hnd Hpre Hin. destruct (IH acc' Hnd) as (H1 & H2 & H3).
      split_and!; [done|by etrans|]. intros x [Hx|(t & Ht & Hsplit)]%H3.
      - destruct (Hin x Hx) as [?|?]; [by left|]. right. exists text.
        split; [by left|done].
      - right. exists t. split; [by right|done]. }
    destruct (String.eqb text ""); [by apply Hstep; auto|].
    destruct (Str.split_first text) as [name|] eqn:Hsplit.
    + destruct (negb (String.eqb name "") && negb (bool_decide (name ∈ acc))) eqn:Hnew.
      * apply andb_true_iff in Hnew as [_ Hnew].
        apply negb_true_iff, bool_decide_eq_false in Hnew.
        apply Hstep.
        -- apply NoDup_app. split_and!; [done| |apply NoDup_singleton].
           intros x Hx Hx'%list_elem_of_singleton. by subst.
        -- by apply prefix_app_r.
        -- intros x [?|Hx%list_elem_of_singleton]%elem_of_app; subst; auto.
      * by apply Hstep; auto.
    + cbn. split_and!; [done|done|auto].
  - destruct (IH acc Hacc) as (H1 & H2 & H3). split_and!; [done..|].
    intros x [Hx|(t & Ht & Hsplit)]%H3; [by left|]. right. exists t.
    split; [by right|done].
Qed.

(** X10. The loop over the items of a feed, started with no name:
    the names collected have no duplicates and each is the first token
    of a title; when the loop ends without exception every first token
    of a title is collected; and the loop raises exactly when some
    non-empty title is all whitespace. *)
Theorem scan_items_collects_first_tokens (items : list feed_item) :
  NoDup (scan_items items []).2 ∧
  (∀ x, x ∈ (scan_items items []).2 →
        ∃ text, Some text ∈ items ∧ Str.split_first text = Some x) ∧
  ((scan_items items []).1 = Return tt →
   ∀ text x, Some text ∈ items → Str.split_first text = Some x →
             x ∈ (scan_items items []).2) ∧
  ((∃ e, (scan_items items []).1 = Raise e) ↔
   ∃ text, Some text ∈ items ∧ text ≠ "" ∧ Str.split_first text = None).
Proof.
  destruct (scan_items_keeps items [] (NoDup_nil_2)) as (Hnd & _ & Hfrom).
  split_and!; [done| | |].
  - intros x [Hx|?]%Hfrom; [by apply elem_of_nil in Hx|done].
  - clear Hnd Hfrom.
    generalize (@nil string). induction items as [|[t|] items IH]; intros acc;
      cbn [scan_items].
    + intros _ text x Hin. by apply elem_of_nil in Hin.
    + destruct (String.eqb t "") eqn:Hempty.
      { intros Hok text x [[= ->]|Hin]%elem_of_cons Hsplit; [|by eapply IH].
        apply String.eqb_eq in Hempty as ->. done. }
      destruct (Str.split_first t) as [name|] eqn:Hname; [|done].
      assert (∀ acc', name ∈ acc' → name ∈ (scan_items items acc').2) as Hkept.
      { intros acc' Hin. clear -Hin. revert acc' Hin.
        induction items as [|[t'|] items IH']; intros acc' Hin; cbn [scan_items];
          [done| |by apply IH'].
        destruct (String.eqb t' ""); [by apply IH'|].
        destruct (Str.split_first t') as [n'|]; [|done].
        destruct (negb (String.eqb n' "") && negb (bool_decide (n' ∈ acc')));
          apply IH'; [apply elem_of_app; by left|done]. }
      destruct (negb (String.eqb name "") && negb (bool_decide (name ∈ acc))) eqn:Hnew.
      * intros Hok text x [[= ->]|Hin]%elem_of_cons Hsplit; [|by eapply IH].
        rewrite Hname in Hsplit. injection Hsplit as <-.
        apply Hkept, elem_of_app. right. by apply list_elem_of_singleton.
      * intros Hok text x [[= ->]|Hin]%elem_of_cons Hsplit; [|by eapply IH].
        rewrite Hname in Hsplit. injection Hsplit as <-.
        apply andb_false_iff in Hnew as [Hnew|Hnew].
        -- apply negb_false_iff, String.eqb_eq in Hnew.
           by destruct (split_first_nonempty t name Hname).
        -- apply negb_false_iff, bool_decide_eq_true in Hnew. by apply Hkept.
    + intros Hok text x [[=]|Hin]%elem_of_cons Hsplit. by eapply IH.
  - clear Hnd Hfrom.
    generalize (@nil string). induction items as [|[t|] items IH]; intros acc;
      cbn [scan_items].
    + split; [by intros [e ?]|]. intros (text & Hin & _). by apply elem_of_nil in Hin.
    + destruct (String.eqb t "") eqn:Hempty.
      { rewrite IH. split.
        - intros (text & Hin & H). exists text. split; [by right|done].
        - intros (text & [[= ->]|Hin]%elem_of_cons & Hne & Hnone); [|by exists text].
          apply String.eqb_eq in Hempty. done. }
      destruct (Str.split_first t) as [name|] eqn:Hname.
      * assert (∀ acc', (∃ e, (scan_items items acc').1 = Raise e) ↔
                  ∃ text, Some text ∈ Some t :: items ∧ text ≠ "" ∧
                          Str.split_first text = None) as Hrest.
        { intros acc'. rewrite IH. split.
          - intros (text & Hin & H). exists text. split; [by right|done].
          - intros (text & [[= ->]|Hin]%elem_of_cons & Hne & Hnone); [congruence|].
            by exists text. }
        destruct (negb (String.eqb name "") && negb (bool_decide (name ∈ acc)));
          apply Hrest.
      * cbn. split; [|by eexists]. intros _. exists t. split_and!; [by left| |done].
        intros ->. done.
    + rewrite IH. split.
      * intros (text & Hin & H). exists text. split; [by right|done].
      * intros (text & [[=]|Hin]%elem_of_cons & H); by exists text.
Qed.

Lemma scan_items_collects_first_tokens_witness :
  "bar" ∈ (scan_items [Some "foo 1.0"; Some "bar 2"; Some "foo 1.1"] []).2.
Proof.
  apply (proj1 (proj2 (proj2 (scan_items_collects_first_tokens
                                [Some "foo 1.0"; Some "bar 2"; Some "foo 1.1"])))
           eq_refl "bar 2" "bar").
  - apply list_elem_of_In. vm_compute. tauto.
  - reflexivity.
Defined.

(** ** The resolver *)

(** X11. When the first feed is read without error and yields at
    least one name, [get_recent_packages_from_rss] returns its names cut
    by [[:max_packages]] after one request: the second feed is not
    requested. *)
Theorem first_feed_wins (E : env) (s : state) (items : list feed_item)
    (x : string) (l : list string) :
  get_feed E (trace s) updates_url = Some items →
  scan_items items [] = (Return tt, x :: l) →
  get_recent_packages_from_rss E s =
  (Return (slice_to (max_packages (self s)) (x :: l)), log (Get updates_url) s).
Proof.
  intros Hfeed Hscan.
  unfold get_recent_packages_from_rss, mbind, M_bind, rss_urls.
  fold updates_url. by rewrite try_feeds_cons, Hfeed, Hscan.
Qed.

Lemma first_feed_wins_witness :
  get_recent_packages_from_rss
    (Scenario.with_feeds (Some [Some "foo 1.0"; Some "bar 2"; Some "foo 1.1"]) None)
    Scenario.fresh =
  (Return ["foo"; "bar"], log (Get updates_url) Scenario.fresh).
Proof.
  apply (first_feed_wins
           (Scenario.with_feeds (Some [Some "foo 1.0"; Some "bar 2"; Some "foo 1.1"]) None)
           Scenario.fresh [Some "foo 1.0"; Some "bar 2"; Some "foo 1.1"] "foo" ["bar"]).
  - reflexivity.
  - vm_compute. reflexivity.
Defined.

Lemma NoDup_slice_to {A} (k : Z) (l : list A) : NoDup l → NoDup (slice_to k l).
Proof.
  intros Hl. unfold slice_to.
  destruct (0 <=? k); (eapply sublist_NoDup; [exact Hl|apply sublist_take]).
Qed.

Lemma NoDup_fallback : NoDup get_popular_packages_fallback.
Proof. apply (bool_decide_unpack _). vm_compute. exact I. Qed.

(** What follows the loop over the feeds in [get_recent_packages_from_rss]. *)
Lemma resolver_second_feed E acc s :
  NoDup acc →
  ∃ l, (r ← try_feeds E [packages_url] acc;
        match r with
        | Some l => pure l
        | None =>
            c ← get_self;
            pure (slice_to (max_packages c) get_popular_packages_fallback)
        end) s = (Return l, log (Get packages_url) s) ∧ NoDup l.
Proof.
  intros Hacc. unfold mbind, M_bind. rewrite try_feeds_cons. cbn [try_feeds].
  assert (∃ l, (Return (slice_to (max_packages (self (log (Get packages_url) s)))
                          get_popular_packages_fallback),
                log (Get packages_url) s) =
               (Return l, log (Get packages_url) s) ∧ NoDup l) as Hfallback.
  { eexists. split; [done|]. apply NoDup_slice_to, NoDup_fallback. }
  destruct (get_feed E (trace s) packages_url) as [items|]; [|exact Hfallback].
  destruct (scan_items_keeps items acc Hacc) as (Hnd & _ & _).
  destruct (scan_items items acc) as [[[]|e] [|x l]]; try exact Hfallback.
  eexists. split; [done|]. by apply NoDup_slice_to.
Qed.

(** X12. [get_recent_packages_from_rss] never raises and returns a
    list without duplicates.  Its only effects are one request to the
    first feed, or one to each feed in that order; the store and the
    crawler are untouched. *)
Theorem resolver_requests_feeds_only (E : env) (s : state) :
  ∃ l, (get_recent_packages_from_rss E s).1 = Return l ∧
       NoDup l ∧
       ((get_recent_packages_from_rss E s).2 = log (Get updates_url) s ∨
        (get_recent_packages_from_rss E s).2 =
          log (Get packages_url) (log (Get updates_url) s)).
Proof.
  assert (∀ acc, NoDup acc →
            get_recent_packages_from_rss E s =
            (r ← try_feeds E [packages_url] acc;
             match r with
             | Some l => pure l
             | None =>
                 c ← get_self;
                 pure (slice_to (max_packages c) get_popular_packages_fallback)
             end) (log (Get updates_url) s) →
            ∃ l, (get_recent_packages_from_rss E s).1 = Return l ∧ NoDup l ∧
                 ((get_recent_packages_from_rss E s).2 = log (Get updates_url) s ∨
                  (get_recent_packages_from_rss E s).2 =
                    log (Get packages_url) (log (Get updates_url) s))) as Hnext.
  { intros acc Hacc ->.
    destruct (resolver_second_feed E acc (log (Get updates_url) s) Hacc) as (l & -> & Hl).
    exists l. split_and!; [done..|by right]. }
  pose proof (eq_refl (get_recent_packages_from_rss E s)) as Hrun.
  unfold get_recent_packages_from_rss at 2 in Hrun.
  unfold mbind at 1, M_bind at 1, rss_urls in Hrun.
  fold updates_url packages_url in Hrun. rewrite try_feeds_cons in Hrun.
  destruct (get_feed E (trace s) updates_url) as [items|];
    [|by apply (Hnext [] (NoDup_nil_2))].
  destruct (scan_items_keeps items [] (NoDup_nil_2)) as (Hnd & _ & _).
  destruct (scan_items items []) as [[[]|e] [|x l]];
    try by apply (Hnext _ Hnd).
  rewrite Hrun. eexists. split_and!; [done| |by left]. by apply NoDup_slice_to.
Qed.

(** ** The loop and the session *)

Lemma pauses_download_package E n d s :
  pauses (trace (download_package E n d s).2) = pauses (trace s).
Proof.
  destruct (download_package_path E n d s) as (b & s' & -> & Hpath).
  by destruct Hpath.
Qed.

Lemma config_max_packages c c' : config c = config c' → max_packages c = max_packages c'.
Proof. unfold config. by intros [= _ -> _ _]. Qed.

(** The loop of [crawl_and_download] in one statement: what it appends,
    how it counts, and how often it pauses. *)
Lemma crawl_loop_summary E l dl cnt s :
  ∃ extra s',
    crawl_loop E l dl cnt s = (Return (dl ++ extra, cnt + Z.of_nat (length extra)), s') ∧
    extra `sublist_of` l ∧
    (extra ≠ [] → cnt + Z.of_nat (length extra) <= max_packages (self s)) ∧
    config (self s') = config (self s) ∧
    (pauses (trace s) + length extra ≤ pauses (trace s') ≤ pauses (trace s) + length l)%nat.
Proof.
  revert dl cnt s. induction l as [|n l IH]; intros dl cnt s.
  { exists [], s. cbn. rewrite app_nil_r, Z.add_0_r. split_and!; [done..|lia|lia]. }
  assert (∃ extra s',
            (Return (dl, cnt), s) = (Return (dl ++ extra, cnt + Z.of_nat (length extra)), s') ∧
            extra `sublist_of` n :: l ∧
            (extra ≠ [] → cnt + Z.of_nat (length extra) <= max_packages (self s)) ∧
            config (self s') = config (self s) ∧
            (pauses (trace s) + length extra ≤ pauses (trace s')
             ≤ pauses (trace s) + length (n :: l))%nat) as Hbreak.
  { exists [], s. cbn. rewrite app_nil_r, Z.add_0_r.
    split_and!; [done|apply sublist_nil_l|done|done|lia|lia]. }
  assert (∀ s1, config (self s1) = config (self s) →
                pauses (trace s1) = pauses (trace s) →
            ∃ extra s',
              crawl_loop E l dl cnt s1 =
                (Return (dl ++ extra, cnt + Z.of_nat (length extra)), s') ∧
              extra `sublist_of` n :: l ∧
              (extra ≠ [] → cnt + Z.of_nat (length extra) <= max_packages (self s)) ∧
              config (self s') = config (self s) ∧
              (pauses (trace s) + length extra ≤ pauses (trace s')
               ≤ pauses (trace s) + length (n :: l))%nat) as Hskip.
  { intros s1 Hcfg Hp.
    destruct (IH dl cnt s1) as (extra & s' & -> & Hsub & Hmax & Hcfg' & Hlo & Hhi).
    exists extra, s'. split_and!.
    - done.
    - by apply sublist_cons.
    - intros He. specialize (Hmax He). apply config_max_packages in Hcfg. lia.
    - congruence.
    - lia.
    - cbn. lia. }
  cbn [crawl_loop]. unfold mbind, M_bind, get_self, pure, lift, emit.
  destruct (max_packages (self s) <=? cnt) eqn:Hfull; [exact Hbreak|].
  apply Z.leb_gt in Hfull.
  destruct (get_package_info_cases E n s) as [[_ ->]|(d & _ & ->)];
    [by apply Hskip|].
  destruct (is_updated_returns E d) as [b ->]. cbn.
  destruct b; cbn; [|by apply Hskip].
  pose proof (pauses_download_package E n d (log (Get (json_url n)) s)) as Hp.
  pose proof (keeps_config_download_package (config (self s)) E n d
                (log (Get (json_url n)) s) eq_refl) as Hcfg.
  destruct (download_package_path E n d (log (Get (json_url n)) s))
    as (ok & s1 & Hrun & _).
  rewrite Hrun in Hp, Hcfg |- *. unfold configured in Hcfg.
  change (pauses (trace s1) = pauses (trace s)) in Hp.
  change (config (self s1) = config (self s)) in Hcfg.
  pose proof (config_max_packages _ _ Hcfg) as Hmp.
  assert (pauses (trace (log Sleep s1)) = S (pauses (trace s))) as Hsleep
    by (change (S (pauses (trace s1)) = S (pauses (trace s))); by f_equal).
  destruct ok.
  - destruct (IH (dl ++ [n]) (cnt + 1) (log Sleep s1))
      as (extra & s' & -> & Hsub & Hmax & Hcfg' & Hlo & Hhi).
    rewrite Hsleep in Hlo, Hhi.
    change (max_packages (self (log Sleep s1))) with (max_packages (self s1)) in Hmax.
    change (config (self (log Sleep s1))) with (config (self s1)) in Hcfg'.
    exists (n :: extra), s'. split_and!.
    + replace (cnt + Z.of_nat (length (n :: extra)))
        with (cnt + 1 + Z.of_nat (length extra)) by (cbn [length]; lia).
      by rewrite <- app_assoc.
    + by apply sublist_skip.
    + intros _. cbn [length]. destruct extra as [|x extra].
      * cbn [length]. lia.
      * assert (cnt + 1 + Z.of_nat (length (x :: extra)) <= max_packages (self s1))
          as Hm by (by apply Hmax).
        lia.
    + congruence.
    + cbn [length]. lia.
    + cbn [length]. lia.
  - destruct (IH dl cnt (log Sleep s1))
      as (extra & s' & -> & Hsub & Hmax & Hcfg' & Hlo & Hhi).
    rewrite Hsleep in Hlo, Hhi.
    change (max_packages (self (log Sleep s1))) with (max_packages (self s1)) in Hmax.
    change (config (self (log Sleep s1))) with (config (self s1)) in Hcfg'.
    exists extra, s'. split_and!.
    + done.
    + by apply sublist_cons.
    + intros He. specialize (Hmax He). lia.
    + congruence.
    + lia.
    + cbn [length]. lia.
Qed.

Lemma untouched_log s ev s' : silent ev → untouched s s' → untouched s (log ev s').
Proof. intros Hev (? & ? & ?). split_and!; [done..|]. by destruct ev. Qed.

(** The first step of [crawl_and_download]: the list given, or the list
    of the resolver. *)
Lemma candidates_resolved E pl s :
  ∃ l0 sa,
    match pl with
    | Some l => pure l
    | None => get_recent_packages_from_rss E
    end s = (Return l0, sa) ∧
    untouched s sa ∧
    (∀ cands, pl = Some cands → l0 = cands ∧ sa = s) ∧
    (pl = None → ∃ names, l0 = slice_to (max_packages (self s)) names).
Proof.
  destruct pl as [l|].
  - exists l, s. split_and!; [done|done| |done]. by intros cands [= ->].
  - pose proof (keeps_get_recent_packages_from_rss (untouched s) (untouched_log s)
                  E s ltac:(done)) as Hkeep.
    unfold get_recent_packages_from_rss, mbind, M_bind in *.
    destruct (try_feeds_returns E rss_urls [] s) as (r & s' & Hrun & Hself & Hr).
    rewrite Hrun in Hkeep |- *. destruct r as [l|].
    + exists l, s'. split_and!; [done..| |]; [done|]. intros _. by apply Hr.
    + unfold get_self, pure in *. rewrite Hself.
      eexists _, s'. split_and!; [done..| |]; [done|]. intros _. by eexists.
Qed.

(** X13. A session never reports more downloads than [max_packages]
    (for a non-negative maximum), and when the candidates are given the
    names it returns are among them, in their order. *)
Theorem session_downloads_bounded (E : env) (pl : option (list string))
    (s : state) (l : list string) :
  (crawl_and_download E pl s).1 = Return (Some l) →
  (0 <= max_packages (self s) → Z.of_nat (length l) <= max_packages (self s)) ∧
  (∀ cands, pl = Some cands → l `sublist_of` cands).
Proof.
  unfold crawl_and_download, mbind, M_bind.
  destruct (candidates_resolved E pl s) as (l0 & sa & -> & (Hself & _) & Hgiven & _).
  destruct l0 as [|n0 l0]; [done|].
  destruct (crawl_loop_summary E (n0 :: l0) [] 0 sa)
    as (extra & sl & -> & Hsub & Hmax & _).
  destruct (create_summary_report E _ sl) as [[[]|e] sr]; [|done].
  cbn. intros [= <-]. split.
  - intros Hpos. destruct extra as [|x extra]; [cbn; lia|].
    rewrite <- Hself. by apply Hmax.
  - intros cands Hpl. by destruct (Hgiven cands Hpl) as [<- _].
Qed.

Lemma session_downloads_bounded_witness :
  Z.of_nat (length ["alpha"; "beta"]) <= max_packages (self Scenario.fresh2).
Proof.
  apply (proj1 (session_downloads_bounded Scenario.online
                  (Some ["alpha"; "beta"; "gamma"]) Scenario.fresh2 ["alpha"; "beta"]
                  ltac:(vm_compute; reflexivity))).
  vm_compute. discriminate.
Defined.


(** X15. With an empty list of candidates, or with the resolver and a
    maximum of 0, [crawl_and_download] returns [None] and writes
    nothing: no report, no rendering, no change of the store or of the
    running total. *)
Theorem no_candidates_no_report (E : env) (pl : option (list string)) (s : state) :
  pl = Some [] ∨ pl = None ∧ max_packages (self s) = 0 →
  (crawl_and_download E pl s).1 = Return None ∧
  untouched s (crawl_and_download E pl s).2.
Proof.
  intros Hempty. unfold crawl_and_download, mbind, M_bind.
  destruct (candidates_resolved E pl s) as (l0 & sa & -> & Hsa & Hgiven & Hfeeds).
  assert (l0 = []) as ->; [|done].
  destruct Hempty as [->|[-> Hzero]].
  - by destruct (Hgiven [] eq_refl).
  - destruct (Hfeeds eq_refl) as [names ->]. by rewrite Hzero.
Qed.

Lemma no_candidates_no_report_witness :
  (crawl_and_download Scenario.online None
     (Fixture.start (init "packages" 0 1))).1 = Return None.
Proof.
  apply no_candidates_no_report. right. split; reflexivity.
Defined.

(** X17. The only exception that leaves [crawl_and_download] is the
    [OSError] of a refused write of the report or of its rendering; when
    both can be written, the session returns. *)
Theorem session_raises_only_on_report (E : env) (pl : option (list string))
    (s : state) :
  (∀ e, (crawl_and_download E pl s).1 = Raise e → e = OSError) ∧
  ((∀ tr, can_write E tr (Str.path_join (download_dir (self s)) "download_report.json")
          = true ∧
          can_write E tr (Str.path_join (download_dir (self s)) "README.md") = true) →
   ∃ r, (crawl_and_download E pl s).1 = Return r).
Proof.
  unfold crawl_and_download, mbind, M_bind.
  destruct (candidates_resolved E pl s) as (l0 & sa & -> & (Hself & _) & _).
  destruct l0 as [|n0 l0]; [split; [done|by eexists]|].
  destruct (crawl_loop_summary E (n0 :: l0) [] 0 sa)
    as (extra & sl & -> & _ & _ & Hcfg & _).
  assert (download_dir (self sl) = download_dir (self s)) as Hdir.
  { rewrite <- Hself. unfold config in Hcfg. by simplify_eq. }
  unfold create_summary_report, git_commit_and_push, mbind, M_bind, clock,
    get_self, write_file, emit, pure. cbn [self store trace fst snd].
  rewrite Hdir.
  set (p1 := Str.path_join (download_dir (self s)) "download_report.json").
  set (p2 := Str.path_join (download_dir (self s)) "README.md").
  destruct (can_write E (trace sl) p1) eqn:Hw1.
  - match goal with
    | |- context [can_write E ?tr p2] => destruct (can_write E tr p2) eqn:Hw2
    end.
    + split; [done|by eexists].
    + split; [by intros e [= <-]|]. intros Hall.
      match type of Hw2 with
      | can_write E ?tr p2 = false => destruct (Hall tr) as [_ Hok]
      end.
      congruence.
  - split; [by intros e [= <-]|]. intros Hall.
    destruct (Hall (trace sl)) as [Hok _]. congruence.
Qed.

Lemma session_raises_only_on_report_witness :
  ∃ r, (crawl_and_download Scenario.online (Some ["alpha"]) Scenario.fresh).1 = Return r.
Proof.
  apply (proj2 (session_raises_only_on_report Scenario.online (Some ["alpha"])
                  Scenario.fresh)).
  intros tr. split; reflexivity.
Defined.

(** ** Sizes beyond the floats *)

Lemma shift_round_large (n k : Z) :
  0 < k → 2 ^ (52 + k) <= Z.abs n → 2 ^ 52 <= Z.abs (Float.shift_round n k).
Proof.
  intros Hk Hn. unfold Float.shift_round.
  rewrite Z.pow_add_r in Hn by lia.
  assert (0 < 2 ^ k) as HP by (apply Z.pow_pos_nonneg; lia).
  assert (0 < 2 ^ (k - 1)) as Hhalf by (apply Z.pow_pos_nonneg; lia).
  pose proof (Z.div_mod n (2 ^ k) ltac:(lia)) as Hdiv.
  pose proof (Z.mod_pos_bound n (2 ^ k) HP) as Hr.
  set (q := n / 2 ^ k) in *. set (r := n mod 2 ^ k) in *.
  set (P := 2 ^ k) in *. set (half := 2 ^ (k - 1)) in *.
  clearbody q r P half.
  change (2 ^ 52) with 4503599627370496 in *.
  assert (n = P * q + r → 0 <= r < P → 4503599627370496 * P <= Z.abs n →
          (4503599627370496 <= q ∨ q <= - 4503599627370496 - 1 ∨
           q = - 4503599627370496 ∧ r = 0)) as Hq.
  { intros -> ? Habs. destruct (Z.le_gt_cases 0 q) as [Hpos|Hneg].
    - left. assert (Z.abs (P * q + r) = P * q + r) as Heq by nia.
      rewrite Heq in Habs. nia.
    - right. assert (P * q + r < 0) by nia.
      assert (Z.abs (P * q + r) = - (P * q + r)) as Heq by lia.
      rewrite Heq in Habs.
      destruct (Z.eq_dec r 0) as [->|Hr0].
      + assert (q <= - 4503599627370496) by nia. lia.
      + left. nia. }
  specialize (Hq Hdiv Hr Hn).
  destruct (Z.compare_spec r half) as [He|Hl|Hg];
    [destruct (Z.even q)|..]; lia.
Qed.

Lemma int_div_pow2_overflow (n : Z) :
  2 ^ 1044 <= Z.abs n → Float.int_div_pow2 n 20 = Raise OverflowError.
Proof.
  intros Hn. unfold Float.int_div_pow2, Float.round.
  change (Z.opp 20) with (- 20).
  assert (1044 <= Z.log2 (Z.abs n)) as Hlog.
  { change 1044 with (Z.log2 (2 ^ 1044)). by apply Z.log2_le_mono. }
  set (L := Z.log2 (Z.abs n)) in *.
  assert (Z.max (L - 52) (- 1074 - - 20) = L - 52) as -> by lia.
  assert ((0 <? L - 52) = true) as -> by (apply Z.ltb_lt; lia).
  assert (2 ^ 52 <= Z.abs (Float.shift_round n (L - 52))) as Hm.
  { apply shift_round_large; [lia|].
    replace (52 + (L - 52)) with L by lia.
    apply Z.log2_spec. lia. }
  assert (52 <= Z.log2 (Z.abs (Float.shift_round n (L - 52)))) as Hlog'.
  { change 52 with (Z.log2 (2 ^ 52)). by apply Z.log2_le_mono. }
  destruct (Float.shift_round n (L - 52) =? 0) eqn:H0.
  { apply Z.eqb_eq in H0. rewrite H0 in Hm. cbn in Hm. lia. }
  assert ((1024 <=? Z.log2 (Z.abs (Float.shift_round n (L - 52))) + (- 20 + (L - 52)))
          = true) as -> by (apply Z.leb_le; lia).
  by destruct (0 <? Float.shift_round n (L - 52)).
Qed.

Lemma find_suitable_skips suffix cap pre l :
  Forall (λ g, ∃ nm, filename g = Some nm ∧ Str.endswith nm suffix = false) pre →
  find_suitable suffix cap (pre ++ l) = find_suitable suffix cap l.
Proof.
  induction 1 as [|g pre (nm & Hnm & Hs) _ IH]; [done|].
  cbn [app find_suitable]. rewrite Hnm. cbn. by rewrite Hs.
Qed.

(** X16. When the first [.tar.gz] file of the release list declares
    [2^1044] bytes or more, [get_file_size_mb] raises [OverflowError]:
    the selection stops there, whatever files follow, and
    [download_package] returns [False] without any effect. *)
Theorem overflowing_size_fails_the_download (E : env) (n : string) (d : package_info)
    (s : state) (i : info_obj) (v : string) (all : gmap string (list file_info))
    (pre rest : list file_info) (f : file_info) (name : string) :
  info d = Some i → version i = Some v → releases d = Some all →
  all !! v = Some (pre ++ f :: rest) →
  Forall (λ g, ∃ nm, filename g = Some nm ∧ Str.endswith nm ".tar.gz" = false) pre →
  filename f = Some name → Str.endswith name ".tar.gz" = true →
  2 ^ 1044 <= Z.abs (declared_size f) →
  get_file_size_mb f = Raise OverflowError ∧
  select_file (max_size_mb (self s)) d = Raise OverflowError ∧
  download_package E n d s = (Return false, s).
Proof.
  intros Hi Hv Hr Hl Hpre Hn Hs Hbig.
  assert (get_file_size_mb f = Raise OverflowError) as Hsize
    by exact (int_div_pow2_overflow _ Hbig).
  assert (select_file (max_size_mb (self s)) d = Raise OverflowError) as Hsel.
  { unfold select_file. rewrite Hi. cbn. rewrite Hv. cbn. rewrite Hr. cbn.
    rewrite Hl. cbn. rewrite (find_suitable_skips ".tar.gz") by done.
    cbn [find_suitable]. rewrite Hn. cbn. rewrite Hs. by rewrite Hsize. }
  split_and!; [done..|].
  destruct (download_package_path E n d s) as (b & s' & -> & Hpath).
  destruct Hpath as [|? Hsel'|? Hsel'|???[Hsel' _]|???[Hsel' _]|????[Hsel' _]
                     |?????[Hsel' _]|?????[Hsel' _]];
    [done|congruence..].
Qed.

Lemma overflowing_size_fails_the_download_witness :
  download_package Scenario.online "over" Scenario.overflowing Scenario.fresh =
  (Return false, Scenario.fresh).
Proof.
  refine (proj2 (proj2 (overflowing_size_fails_the_download Scenario.online "over"
                   Scenario.overflowing Scenario.fresh _ "2.0" _
                   [Scenario.wheel] [Scenario.sdist] Scenario.over_file
                   "over-2.0.tar.gz" eq_refl eq_refl eq_refl _ _ eq_refl _ _))).
  - vm_compute. reflexivity.
  - repeat constructor. eexists. split; [reflexivity|]. vm_compute. reflexivity.
  - vm_compute. reflexivity.
  - vm_compute. discriminate.
Defined.

(** ** The report *)

Lemma round_half_even_close (q : Q) :
  (Qabs (inject_Z (round_half_even q) - q) <= 1 # 2)%Q.
Proof.
  unfold round_half_even.
  pose proof (Qfloor_le q) as Hlo. pose proof (Qlt_floor q) as Hhi.
  rewrite inject_Z_plus in Hhi. change (inject_Z 1) with 1%Q in Hhi.
  apply Qabs_Qle_condition.
  destruct (Qcompare_spec (q - inject_Z (Qfloor q)) (1 # 2)) as [He|Hl|Hg].
  - destruct (Z.even (Qfloor q)).
    + split; lra.
    + rewrite inject_Z_plus. change (inject_Z 1) with 1%Q. split; lra.
  - split; lra.
  - rewrite inject_Z_plus. change (inject_Z 1) with 1%Q. split; lra.
Qed.

Lemma round2_close (x : Q) : (Qabs (round2 x - x) <= 1 # 200)%Q.
Proof.
  unfold round2. pose proof (round_half_even_close (x * 100)) as H.
  apply Qabs_Qle_condition in H as [H1 H2]. apply Qabs_Qle_condition.
  set (h := inject_Z (round_half_even (x * 100))) in *. clearbody h.
  assert (h / 100 == h * (1 # 100))%Q as -> by (field).
  split; lra.
Qed.

Lemma report_not_readme dir : report_path dir ≠ readme_path dir.
Proof.
  intros Heq. apply (f_equal Str.last) in Heq. unfold report_path, readme_path in Heq.
  rewrite !last_path_join in Heq by done. discriminate.
Qed.

Lemma create_summary_report_returns E l s s' :
  create_summary_report E l s = (Return tt, s') →
  let rep := {| rp_download_time := now E (trace s);
                total_packages_downloaded := length l;
                total_size_mb := round2_float (current_total_size (self s));
                rp_packages := l |} in
  s' = store (readme_path (dir s)) (Readme rep)
         (store (report_path (dir s)) (ReportJson rep) s).
Proof.
  unfold create_summary_report, mbind, M_bind, clock, get_self, write_file, pure.
  cbn [self store trace]. fold (dir s). fold (report_path (dir s)).
  fold (readme_path (dir s)).
  destruct (can_write E (trace s) (report_path (dir s))); [|done].
  match goal with
  | |- context [can_write E ?tr (readme_path (dir s))] =>
      destruct (can_write E tr (readme_path (dir s)))
  end; [|done].
  by intros [= <-].
Qed.

(** X18. [create_summary_report], when it returns: the report and its
    rendering are in the store under [download_report.json] and
    [README.md], they carry the names given, their number and the time of
    the clock, and, for a running total that is a number, a total that is
    a whole number of hundredths at most half a hundredth away from the
    running total; the crawler is unchanged. *)
Theorem report_shows_the_rounded_total (E : env) (l : list string) (s s' : state)
    (m e : Z) :
  current_total_size (self s) = Float.Finite m e →
  create_summary_report E l s = (Return tt, s') →
  ∃ rep q,
    files s' !! report_path (dir s) = Some (ReportJson rep) ∧
    files s' !! readme_path (dir s) = Some (Readme rep) ∧
    rp_packages rep = l ∧ total_packages_downloaded rep = length l ∧
    rp_download_time rep = now E (trace s) ∧
    total_size_mb rep = Float.Decimal q ∧
    (Qabs (q - Float.value m e) <= 1 # 200)%Q ∧
    (∃ h : Z, q == inject_Z h / 100)%Q ∧
    self s' = self s.
Proof.
  intros Htotal ->%create_summary_report_returns.
  eexists _, (round2 (Float.value m e)). cbn [files store self].
  split_and!.
  - rewrite lookup_insert_ne by (by intros ?%eq_sym%report_not_readme).
    by rewrite lookup_insert_eq.
  - by rewrite lookup_insert_eq.
  - done.
  - done.
  - done.
  - cbn. by rewrite Htotal.
  - apply round2_close.
  - by eexists.
  - done.
Qed.

Lemma report_shows_the_rounded_total_witness :
  ∃ rep q,
    files (create_summary_report Scenario.online ["alpha"] Scenario.after_alpha).2
      !! "packages/download_report.json" = Some (ReportJson rep) ∧
    total_size_mb rep = Float.Decimal q ∧
    (Qabs (q - Float.value 500000 (- 20)) <= 1 # 200)%Q.
Proof.
  destruct (report_shows_the_rounded_total Scenario.online ["alpha"] Scenario.after_alpha
              (create_summary_report Scenario.online ["alpha"] Scenario.after_alpha).2
              500000 (- 20))
    as (rep & q & Hrep & _ & _ & _ & _ & Hq & Hclose & _).
  - vm_compute. reflexivity.
  - vm_compute. reflexivity.
  - by exists rep, q.
Defined.

(** X19. When [crawl_and_download] returns a list of names, the report
    and its rendering are in the store, they list exactly these names
    with their number and the rounded running total, and their writes
    are the last events of the session before the publication. *)
Theorem session_report_lists_the_result (E : env) (pl : option (list string))
    (s s' : state) (l : list string) :
  crawl_and_download E pl s = (Return (Some l), s') →
  ∃ rep tr,
    files s' !! report_path (dir s) = Some (ReportJson rep) ∧
    files s' !! readme_path (dir s) = Some (Readme rep) ∧
    rp_packages rep = l ∧ total_packages_downloaded rep = length l ∧
    total_size_mb rep = round2_float (current_total_size (self s')) ∧
    trace s' = GitPublish (dir s) :: WriteFile (readme_path (dir s)) (Readme rep)
                 :: WriteFile (report_path (dir s)) (ReportJson rep) :: tr.
Proof.
  unfold crawl_and_download, mbind, M_bind.
  destruct (candidates_resolved E pl s) as (l0 & sa & -> & (Hself & _) & _).
  destruct l0 as [|n0 l0]; [done|].
  destruct (crawl_loop_summary E (n0 :: l0) [] 0 sa)
    as (extra & sl & -> & _ & _ & Hcfg & _).
  assert (dir sl = dir s) as Hdir.
  { unfold dir. rewrite <- Hself. unfold config in Hcfg. by simplify_eq. }
  cbn [fst].
  destruct (create_summary_report E ([] ++ extra) sl) as [[[]|e] sr] eqn:Hrep; [|done].
  apply create_summary_report_returns in Hrep. cbv zeta in Hrep. rewrite Hdir in Hrep.
  unfold git_commit_and_push, mbind, M_bind, get_self, emit, pure.
  intros [= <- <-]. subst sr. eexists _, _. cbn [files store log self trace].
  split_and!.
  - rewrite lookup_insert_ne by (by intros ?%eq_sym%report_not_readme).
    by rewrite lookup_insert_eq.
  - by rewrite lookup_insert_eq.
  - done.
  - done.
  - done.
  - by rewrite <- Hdir.
Qed.

Lemma session_report_lists_the_result_witness :
  ∃ rep,
    files (crawl_and_download Scenario.online (Some ["alpha"]) Scenario.fresh).2
      !! "packages/download_report.json" = Some (ReportJson rep) ∧
    rp_packages rep = ["alpha"].
Proof.
  destruct (session_report_lists_the_result Scenario.online (Some ["alpha"])
              Scenario.fresh
              (crawl_and_download Scenario.online (Some ["alpha"]) Scenario.fresh).2
              ["alpha"])
    as (rep & tr & Hrep & _ & Hnames & _).
  - vm_compute. reflexivity.
  - by exists rep.
Defined.

(** ** Files are kept *)

Lemma holds_log p ev s : silent ev → holds p s → holds p (log ev s).
Proof. done. Qed.

Lemma holds_store p p' c s : holds p s → holds p (store p' c s).
Proof.
  unfold holds. cbn. intros Hp. destruct (decide (p' = p)) as [->|Hne].
  - by rewrite lookup_insert_eq.
  - by rewrite lookup_insert_ne.
Qed.

Lemma keeps_holds_download_package p E n d : keeps (holds p) (download_package E n d).
Proof.
  intros s Hs.
  destruct (download_package_path E n d s) as (b & s' & -> & Hpath). cbn.
  destruct Hpath; try done; subst; repeat apply holds_store; done.
Qed.

Lemma keeps_holds_create_summary_report p E l :
  keeps (holds p) (create_summary_report E l).
Proof.
  intros s Hs.
  unfold create_summary_report, mbind, M_bind, clock, get_self, write_file, pure.
  repeat case_match; simplify_eq/=; repeat apply holds_store; done.
Qed.

(** X20. No sequence of method calls removes a file from the store. *)
Theorem session_never_removes_a_file (E : env) (calls : list call) (s : state)
    (p : string) :
  is_Some (files s !! p) → is_Some (files (session E calls s) !! p).
Proof.
  change (holds p s → holds p (session E calls s)).
  unfold session. revert s. induction calls as [|c calls IH]; intros s Hs; [done|].
  cbn [foldl]. apply IH. clear IH. revert s Hs.
  destruct c; cbn [perform].
  - apply keeps_get_package_info, holds_log.
  - apply keeps_holds_download_package.
  - apply keeps_save_package_metadata. intros. by apply holds_store.
  - apply keeps_get_recent_packages_from_rss, holds_log.
  - apply keeps_git_commit_and_push, holds_log.
  - apply keeps_holds_create_summary_report.
  - apply keeps_crawl_and_download.
    + apply holds_log.
    + apply keeps_holds_download_package.
    + apply keeps_holds_create_summary_report.
Qed.

Lemma session_never_removes_a_file_witness :
  is_Some (files (session Scenario.online
                    [CrawlAndDownload (Some ["alpha"; "beta"]); CrawlAndDownload None]
                    Scenario.stocked) !! "packages/alpha-2.0.tar.gz").
Proof.
  apply session_never_removes_a_file. vm_compute. by eexists.
Defined.
